(** * PyDetectionDNN: decoding of detection-network outputs

    A shallow embedding of [PyDetectionDNN.postprocess] and
    [PyDetectionDNN.process] (src/Modules/PyDetectionDNN/PyDetectionDNN.py).

    Conventions of the embedding.
    - Tensor entries and confidences are floating-point numbers in the
      module; here they are exact rationals ([Q]).  Comparisons, [int()]
      truncation and the products with the frame size are the exact ones;
      not-a-number and infinite entries are outside the model.
    - Python exceptions are values of [exn]; a computation that may raise
      returns a [result].
    - What the module does to the outside world (logging, drawing, running
      the network, sending the frame) is recorded as a trace of [event]s. *)

From Stdlib Require Import ZArith QArith Qround String List Bool Lia.
From Stdlib Require Import Sorted Permutation.
Import ListNotations.

Local Open Scope Z_scope.

(** ** Numbers *)

(** Python's [int(x)] on a float: truncation toward zero. *)
Definition py_int (q : Q) : Z := Z.quot (Qnum q) (Zpos (Qden q)).

(** Python's [a > b]. *)
Definition Qgtb (a b : Q) : bool := negb (Qle_bool a b).

(** The rounding the specification words the scaling with: the nearest
    integer, a half going to the even neighbour. *)
Definition round_nearest (q : Q) : Z :=
  let f := Qfloor q in
  let r := (q - inject_Z f)%Q in
  match (r ?= 1 # 2)%Q with
  | Lt => f
  | Gt => f + 1
  | Eq => if Z.even f then f else f + 1
  end.

(** ** Exceptions *)

Inductive exn : Type :=
| NameError (name : string)
| IndexError
| ValueError
| AssertionError.

Inductive result (A : Type) : Type :=
| Ok (a : A)
| Raise (e : exn).
Arguments Ok {A} a.
Arguments Raise {A} e.

Definition bind {A B : Type} (m : result A) (k : A -> result B) : result B :=
  match m with
  | Ok a => k a
  | Raise e => Raise e
  end.

Notation "x <- m ;; k" := (bind m (fun x => k))
  (at level 61, m at next level, right associativity).

(** A [for] loop whose body may raise: the accumulator is threaded through
    the iterations and the first exception ends the loop. *)
Fixpoint for_each {A S : Type} (body : A -> S -> result S) (l : list A) (s : S)
  : result S :=
  match l with
  | [] => Ok s
  | x :: rest => s' <- body x s ;; for_each body rest s'
  end.

(** ** Data *)

(** One row of an output blob, [detection] in the source. *)
Definition Row : Type := list Q.

(** The rows one output blob is iterated over: [out[0, 0]] for the
    1x1xNx7 blobs, [out] itself for the NxC blobs. *)
Definition Blob : Type := list Row.

(** [detection[i]] for a non-negative constant [i]. *)
Definition getitem {A : Type} (l : list A) (i : nat) : result A :=
  match nth_error l i with
  | Some x => Ok x
  | None => Raise IndexError
  end.

(** A box as appended to [boxes]: [[left, top, width, height]]. *)
Record Box : Type := mkBox {
  left : Z;
  top : Z;
  width : Z;
  height : Z
}.

(** The three parallel lists filled by the decoding loops. *)
Record Acc : Type := mkAcc {
  classIds : list Z;
  confidences : list Q;
  boxes : list Box
}.

Definition empty_acc : Acc := mkAcc [] [] [].

(** The three [append] calls that end each loop body. *)
Definition append3 (acc : Acc) (classId : Z) (confidence : Q) (box : Box) : Acc :=
  mkAcc (classIds acc ++ [classId])
        (confidences acc ++ [confidence])
        (boxes acc ++ [box]).

(** [frame.shape[0]] and [frame.shape[1]]. *)
Record Frame : Type := mkFrame {
  frameHeight : Z;
  frameWidth : Z
}.

(** The attributes of [self] read after construction. *)
Record PyDetectionDNN : Type := mkSelf {
  confThreshold : Q;
  nmsThreshold : Q;
  inpWidth : Z;
  inpHeight : Z;
  classes : option (list string)
}.

(** What [postprocess] and [process] ask the loaded network. *)
Record Net : Type := mkNet {
  has_im_info : bool;      (* getLayer(0).outputNameToIndex('im_info') != -1 *)
  lastLayerType : string   (* getLayer(getLayerId(getLayerNames()[-1])).type *)
}.

(** ** The decoding loops of [postprocess] *)

Section Decoders.

Variable self : PyDetectionDNN.
Variable frame : Frame.

(** Body of the Faster-RCNN / R-FCN loop (lines 135-145). *)
Definition im_info_body (detection : Row) (acc : Acc) : result Acc :=
  confidence <- getitem detection 2 ;;
  if Qgtb confidence (confThreshold self) then
    d3 <- getitem detection 3 ;;
    d4 <- getitem detection 4 ;;
    d5 <- getitem detection 5 ;;
    d6 <- getitem detection 6 ;;
    let left := py_int d3 in
    let top := py_int d4 in
    let right := py_int d5 in
    let bottom := py_int d6 in
    let width := right - left + 1 in
    let height := bottom - top + 1 in
    d1 <- getitem detection 1 ;;
    Ok (append3 acc (py_int d1 - 1) confidence (mkBox left top width height))
  else Ok acc.

(** Body of the ['DetectionOutput'] loop (lines 152-162). *)
Definition detection_output_body (detection : Row) (acc : Acc) : result Acc :=
  confidence <- getitem detection 2 ;;
  if Qgtb confidence (confThreshold self) then
    d3 <- getitem detection 3 ;;
    d4 <- getitem detection 4 ;;
    d5 <- getitem detection 5 ;;
    d6 <- getitem detection 6 ;;
    let left := py_int (d3 * inject_Z (frameWidth frame)) in
    let top := py_int (d4 * inject_Z (frameHeight frame)) in
    let right := py_int (d5 * inject_Z (frameWidth frame)) in
    let bottom := py_int (d6 * inject_Z (frameHeight frame)) in
    let width := right - left + 1 in
    let height := bottom - top + 1 in
    d1 <- getitem detection 1 ;;
    Ok (append3 acc (py_int d1 - 1) confidence (mkBox left top width height))
  else Ok acc.

(** [np.argmax] on a non-empty sequence: the index of the first occurrence
    of the maximum.  [best_i], [best] are the running answer and [i] is the
    index of the head of the remaining list. *)
Fixpoint argmax_from (best_i : nat) (best : Q) (i : nat) (l : list Q) : nat :=
  match l with
  | [] => best_i
  | x :: rest =>
      if Qgtb x best then argmax_from i x (S i) rest
      else argmax_from best_i best (S i) rest
  end.

(** [np.argmax(scores)]; an empty sequence raises [ValueError]. *)
Definition np_argmax (scores : list Q) : result nat :=
  match scores with
  | [] => Raise ValueError
  | x :: rest => Ok (argmax_from 0 x 1 rest)
  end.

(** Body of the ['Region'] loop (lines 172-184). *)
Definition region_body (detection : Row) (acc : Acc) : result Acc :=
  let scores := skipn 5 detection in
  classId <- np_argmax scores ;;
  confidence <- getitem scores classId ;;
  if Qgtb confidence (confThreshold self) then
    d0 <- getitem detection 0 ;;
    d1 <- getitem detection 1 ;;
    d2 <- getitem detection 2 ;;
    d3 <- getitem detection 3 ;;
    let center_x := py_int (d0 * inject_Z (frameWidth frame)) in
    let center_y := py_int (d1 * inject_Z (frameHeight frame)) in
    let width := py_int (d2 * inject_Z (frameWidth frame)) in
    let height := py_int (d3 * inject_Z (frameHeight frame)) in
    let left := py_int (inject_Z center_x - inject_Z width / 2) in
    let top := py_int (inject_Z center_y - inject_Z height / 2) in
    Ok (append3 acc (Z.of_nat classId) confidence (mkBox left top width height))
  else Ok acc.

(** The branch of the [if]/[elif] chain of [postprocess]. *)
Inductive Decoder : Type := ImInfo | DetectionOutput | Region.

Definition body_of (d : Decoder) : Row -> Acc -> result Acc :=
  match d with
  | ImInfo => im_info_body
  | DetectionOutput => detection_output_body
  | Region => region_body
  end.

(** [for out in outs: for detection in ...: body], from the empty lists. *)
Definition decode (d : Decoder) (outs : list Blob) : result Acc :=
  for_each (fun out acc => for_each (body_of d) out acc) outs empty_acc.

End Decoders.

(** ** Non-maximum suppression *)

(** The body of [cv.dnn.NMSBoxes], the OpenCV routine called on line 189,
    is not part of the module.  The definitions of this part follow section
    4.5 of the specification: rectangle intersection over union, a stable
    sort by descending confidence, and a greedy pass that keeps a candidate
    unless its IoU with an already kept one reaches the threshold. *)

(** Modelled from the spec: area of a rectangle, for the IoU that
    [cv.dnn.NMSBoxes] computes. *)
Definition area (b : Box) : Z := width b * height b.

(** Modelled from the spec: area of the intersection of two rectangles, for
    the IoU that [cv.dnn.NMSBoxes] computes. *)
Definition intersection_area (a b : Box) : Z :=
  let w := Z.min (left a + width a) (left b + width b) - Z.max (left a) (left b) in
  let h := Z.min (top a + height a) (top b + height b) - Z.max (top a) (top b) in
  Z.max 0 w * Z.max 0 h.

(** Modelled from the spec: the IoU of [cv.dnn.NMSBoxes], intersection
    area over union area; a zero-area rectangle has IoU 0 with anything. *)
Definition iou (a b : Box) : Q :=
  if (area a =? 0) || (area b =? 0) then 0%Q
  else
    let i := intersection_area a b in
    (inject_Z i / inject_Z (area a + area b - i))%Q.

Section NMS.

Variable A : Type.
Variable box_of : A -> Box.
Variable score_of : A -> Q.

(** Modelled from the spec: one insertion of the stable sort of
    [cv.dnn.NMSBoxes], in front of the first element whose score is not
    greater. *)
Fixpoint insert_desc (x : A) (l : list A) : list A :=
  match l with
  | [] => [x]
  | y :: rest =>
      if Qgtb (score_of y) (score_of x) then y :: insert_desc x rest
      else x :: l
  end.

(** Modelled from the spec: the stable sort by descending confidence of
    [cv.dnn.NMSBoxes]. *)
Definition sort_desc (l : list A) : list A := fold_right insert_desc [] l.

(** Modelled from the spec: the suppression test of [cv.dnn.NMSBoxes];
    does [c] overlap one of the kept candidates by [t] or more? *)
Definition suppressed (t : Q) (kept : list A) (c : A) : bool :=
  existsb (fun k => Qle_bool t (iou (box_of c) (box_of k))) kept.

(** Modelled from the spec: the greedy pass of [cv.dnn.NMSBoxes] over the
    sorted candidates, appending to the kept list. *)
Fixpoint greedy (t : Q) (kept todo : list A) : list A :=
  match todo with
  | [] => kept
  | c :: rest =>
      if suppressed t kept c then greedy t kept rest
      else greedy t (kept ++ [c]) rest
  end.

(** Modelled from the spec: the engine of [cv.dnn.NMSBoxes], sort then
    greedy pass from an empty kept list. *)
Definition nms (t : Q) (l : list A) : list A := greedy t [] (sort_desc l).

End NMS.

Arguments insert_desc {A} score_of x l.
Arguments sort_desc {A} score_of l.
Arguments suppressed {A} box_of t kept c.
Arguments greedy {A} box_of t kept todo.
Arguments nms {A} box_of score_of t l.

(** Modelled from the spec: [cv.dnn.NMSBoxes(boxes, scores, score_threshold,
    nms_threshold)] as called on line 189; the result is the list of the
    indices kept.  Section 4.5 gives the engine the suppression threshold
    only, so [score_threshold] takes no part. *)
Definition NMSBoxes (boxes : list Box) (scores : list Q)
    (score_threshold nms_threshold : Q) : list nat :=
  map fst
    (nms (fun c => fst (snd c)) (fun c => snd (snd c)) nms_threshold
       (combine (seq 0 (length boxes)) (combine boxes scores))).

(** A candidate detection: one position of the three parallel lists. *)
Record Candidate : Type := mkCandidate {
  classId : Z;
  confidence : Q;
  box : Box
}.

Fixpoint candidates3 (cs : list Z) (fs : list Q) (bs : list Box) : list Candidate :=
  match cs, fs, bs with
  | c :: cs', f :: fs', b :: bs' => mkCandidate c f b :: candidates3 cs' fs' bs'
  | _, _, _ => []
  end.

Definition candidates (acc : Acc) : list Candidate :=
  candidates3 (classIds acc) (confidences acc) (boxes acc).

(** Modelled from the spec: the engine of [cv.dnn.NMSBoxes] on a list of
    candidates, as section 4.5 words it. *)
Definition nms_candidates (t : Q) (l : list Candidate) : list Candidate :=
  nms box confidence t l.

(** ** Names *)

(** The values a name of the module can be bound to, as far as [process]
    tells them apart. *)
Inductive pyval : Type :=
| PyInt (z : Z)
| PyObject (kind : string).

(** The names bound at module level: the imports under their [as] names
    and the class. *)
Definition module_globals : list (string * pyval) :=
  [("jevois", PyObject "module"); ("cv", PyObject "module");
   ("np", PyObject "module"); ("sys", PyObject "module");
   ("PyDetectionDNN", PyObject "class")]%string.

(** ** Effects *)

Inductive event : Type :=
| LERROR (msg : string)                        (* jevois.LERROR(msg) *)
| CallNMSBoxes (boxes : list Box) (scores : list Q)
| DrawBox (left top right bottom : Z)          (* first cv.rectangle of drawPred *)
| DrawLabel (name : option string) (conf : Q)  (* label box and cv.putText *)
| GetCvBGR                                     (* inframe.getCvBGR() *)
| TimerStart                                   (* self.timer.start() *)
| BlobFromImage (w h : Z)                      (* cv.dnn.blobFromImage(...) *)
| SetInputBlob                                 (* net.setInput(blob) *)
| Resize (w h : Z)                             (* cv.resize(frame, (w, h)) *)
| SetInputImInfo (h w : pyval)                 (* net.setInput(..., 'im_info') *)
| Forward                                      (* net.forward(...) *)
| PutTitle                                     (* cv.putText(frame, ...) *)
| TimerStop                                    (* self.timer.stop() *)
| PutStatus                                    (* cv.putText(msgbox, ...) *)
| SendCv (rows cols : Z).                      (* outframe.sendCv(frame) *)

(** A computation that extends the trace and may raise; the events that
    happened before an exception stay in the trace. *)
Definition io (A : Type) : Type := list event -> list event * result A.

Definition io_ret {A : Type} (a : A) : io A := fun tr => (tr, Ok a).

Definition io_bind {A B : Type} (m : io A) (k : A -> io B) : io B :=
  fun tr =>
    let (tr', r) := m tr in
    match r with
    | Ok a => k a tr'
    | Raise e => (tr', Raise e)
    end.

Definition emit (e : event) : io unit := fun tr => (tr ++ [e], Ok tt).

Definition lift {A : Type} (r : result A) : io A := fun tr => (tr, r).

Notation "x <~ m ;; k" := (io_bind m (fun x => k))
  (at level 61, m at next level, right associativity).
Notation "m ;;; k" := (io_bind m (fun _ => k))
  (at level 61, right associativity).

Fixpoint io_for_each {A : Type} (body : A -> io unit) (l : list A) : io unit :=
  match l with
  | [] => io_ret tt
  | x :: rest => body x ;;; io_for_each body rest
  end.

(** [seq[i]] for a Python [int] index: negative indices count from the end. *)
Definition py_getitem {A : Type} (l : list A) (i : Z) : result A :=
  let n := Z.of_nat (length l) in
  if (0 <=? i) && (i <? n) then getitem l (Z.to_nat i)
  else if (- n <=? i) && (i <? 0) then getitem l (Z.to_nat (n + i))
  else Raise IndexError.

(** ** [postprocess] *)

Section Postprocess.

Variable self : PyDetectionDNN.
Variable net : Net.

(** The nested [drawPred] (lines 105-120).  The label text carries the class
    name, when class names are loaded, and the confidence. *)
Definition drawPred (classId : Z) (conf : Q) (left top right bottom : Z) : io unit :=
  emit (DrawBox left top right bottom) ;;;
  name <~ lift
    (match classes self with
     | Some (c :: cs) =>
         if classId <? Z.of_nat (length (c :: cs)) then
           n <- py_getitem (c :: cs) classId ;; Ok (Some n)
         else Raise AssertionError
     | _ => Ok None
     end) ;;
  emit (DrawLabel name conf).

(** The [if]/[elif]/[else] chain of lines 129-187: the lists of the branch
    taken, or [None] after the [return] of the [else] branch. *)
Definition decode_outs (frame : Frame) (outs : list Blob) : io (option Acc) :=
  if has_im_info net then
    acc <~ lift (decode self frame ImInfo outs) ;; io_ret (Some acc)
  else if String.eqb (lastLayerType net) "DetectionOutput" then
    acc <~ lift (decode self frame DetectionOutput outs) ;; io_ret (Some acc)
  else if String.eqb (lastLayerType net) "Region" then
    acc <~ lift (decode self frame Region outs) ;; io_ret (Some acc)
  else
    emit (LERROR ("Unknown output layer type: " ++ lastLayerType net)%string) ;;;
    io_ret None.

(** Body of the loop over the indices kept (lines 191-197). *)
Definition draw_kept (acc : Acc) (i : nat) : io unit :=
  box <~ lift (getitem (boxes acc) i) ;;
  let left := left box in
  let top := top box in
  let width := width box in
  let height := height box in
  c <~ lift (getitem (classIds acc) i) ;;
  f <~ lift (getitem (confidences acc) i) ;;
  drawPred c f left top (left + width) (top + height).

(** Lines 189-197. *)
Definition suppress_and_draw (acc : Acc) : io unit :=
  emit (CallNMSBoxes (boxes acc) (confidences acc)) ;;;
  let indices :=
    NMSBoxes (boxes acc) (confidences acc) (confThreshold self) (nmsThreshold self) in
  io_for_each (draw_kept acc) indices.

Definition postprocess (frame : Frame) (outs : list Blob) : io unit :=
  decoded <~ decode_outs frame outs ;;
  match decoded with
  | None => io_ret tt
  | Some acc => suppress_and_draw acc
  end.

(** ** [process] *)

(** Reading a name inside [process]: a local of the function if it has one
    of that name, a module global otherwise ([builtins] has neither
    [inpHeight] nor [inpWidth]). *)
Definition load_name (locals : list (string * pyval)) (name : string) : result pyval :=
  match find (fun b => String.eqb (fst b) name) (locals ++ module_globals) with
  | Some b => Ok (snd b)
  | None => Raise (NameError name)
  end.

(** [process], with [outs] what [net.forward] returns for the frame. *)
Definition process (inframe : Frame) (outs : list Blob) : io unit :=
  let frame := inframe in
  let locals :=
    [("self", PyObject "PyDetectionDNN"); ("inframe", PyObject "InputFrame");
     ("outframe", PyObject "OutputFrame"); ("frame", PyObject "ndarray");
     ("frameHeight", PyInt (frameHeight frame));
     ("frameWidth", PyInt (frameWidth frame));
     ("blob", PyObject "ndarray")]%string in
  emit GetCvBGR ;;;
  emit TimerStart ;;;
  emit (BlobFromImage (inpWidth self) (inpHeight self)) ;;;
  emit SetInputBlob ;;;
  frame <~ (if has_im_info net then
              emit (Resize (inpWidth self) (inpHeight self)) ;;;
              h <~ lift (load_name locals "inpHeight") ;;
              w <~ lift (load_name locals "inpWidth") ;;
              emit (SetInputImInfo h w) ;;;
              io_ret (mkFrame (inpHeight self) (inpWidth self))
            else io_ret frame) ;;
  emit Forward ;;;
  postprocess frame outs ;;;
  emit PutTitle ;;;
  emit TimerStop ;;;
  emit PutStatus ;;;
  (* frame = np.vstack((frame, msgbox)), msgbox being 22 rows tall *)
  emit (SendCv (frameHeight frame + 22) (frameWidth frame)).

End Postprocess.

(** The attribute values set by the constructor. *)
Definition default_self (classes : option (list string)) : PyDetectionDNN :=
  mkSelf (1 # 2) (4 # 10) 160 120 classes.

(** ** Class names and output names *)

(** The character ['\n']. *)
Definition newline : Ascii.ascii := Eval cbv in Ascii.ascii_of_nat 10.

Definition is_newline (c : Ascii.ascii) : bool := Ascii.eqb c newline.

(** [s.rstrip('\n')]: [s] without the newlines it ends with. *)
Fixpoint rstrip_newlines (s : string) : string :=
  match s with
  | EmptyString => EmptyString
  | String c rest =>
      match rstrip_newlines rest with
      | EmptyString => if is_newline c then EmptyString else String c EmptyString
      | String c' r => String c (String c' r)
      end
  end.

(** [s.split('\n')]: the pieces between the newlines; one piece, empty,
    for the empty string. *)
Fixpoint split_newlines (s : string) : list string :=
  match s with
  | EmptyString => [EmptyString]
  | String c rest =>
      if is_newline c then EmptyString :: split_newlines rest
      else
        match split_newlines rest with
        | piece :: pieces => String c piece :: pieces
        | [] => [String c EmptyString]
        end
  end.

(** Line 85, [f.read().rstrip('\n').split('\n')], on the text of the file. *)
Definition load_classes (content : string) : list string :=
  split_newlines (rstrip_newlines content).

(** The constructor (lines 36-91), with [content] the text of the class
    names file it opens: the last model selected is the one in effect, its
    [classnames] is a path, so the names are loaded. *)
Definition init (content : string) : PyDetectionDNN :=
  mkSelf (1 # 2) (4 # 10) 160 120 (Some (load_classes content)).

(** A list comprehension whose element expression may raise. *)
Fixpoint comprehension {A B : Type} (f : A -> result B) (l : list A)
  : result (list B) :=
  match l with
  | [] => Ok []
  | x :: rest => y <- f x ;; ys <- comprehension f rest ;; Ok (y :: ys)
  end.

(** [getOutputsNames] (lines 95-97), with [layersNames] what
    [getLayerNames()] returns and [outLayers] the ids [i[0]] of
    [getUnconnectedOutLayers()]. *)
Definition getOutputsNames (layersNames : list string) (outLayers : list Z)
  : result (list string) :=
  comprehension (fun i => py_getitem layersNames (i - 1)) outLayers.

(** [layerNames[-1]] (line 123), the name of the layer whose type
    [postprocess] looks at. *)
Definition last_layer_name (layerNames : list string) : result string :=
  py_getitem layerNames (-1).


(** Does [s] hold a newline? *)
Fixpoint has_newline (s : string) : bool :=
  match s with
  | EmptyString => false
  | String c rest => is_newline c || has_newline rest
  end.



(** ** What one row contributes

    The loops above, read row by row: the confidence a row is judged by,
    and the class id and box it yields when it passes the threshold.
    Positions missing from a row read as 0. *)

Definition raw (row : Row) (i : nat) : Q := nth i row 0%Q.

Section RowView.

Variable self : PyDetectionDNN.
Variable frame : Frame.

(** Index of the first maximum of [detection[5:]]. *)
Definition row_argmax (row : Row) : nat :=
  let scores := skipn 5 row in
  argmax_from 0 (raw scores 0) 1 (tl scores).

Definition row_confidence (d : Decoder) (row : Row) : Q :=
  match d with
  | Region => raw (skipn 5 row) (row_argmax row)
  | _ => raw row 2
  end.

Definition row_classId (d : Decoder) (row : Row) : Z :=
  match d with
  | Region => Z.of_nat (row_argmax row)
  | _ => py_int (raw row 1) - 1
  end.

Definition row_box (d : Decoder) (row : Row) : Box :=
  let W := inject_Z (frameWidth frame) in
  let H := inject_Z (frameHeight frame) in
  match d with
  | ImInfo =>
      let l := py_int (raw row 3) in
      let t := py_int (raw row 4) in
      mkBox l t (py_int (raw row 5) - l + 1) (py_int (raw row 6) - t + 1)
  | DetectionOutput =>
      let l := py_int (raw row 3 * W) in
      let t := py_int (raw row 4 * H) in
      mkBox l t (py_int (raw row 5 * W) - l + 1) (py_int (raw row 6 * H) - t + 1)
  | Region =>
      let cx := py_int (raw row 0 * W) in
      let cy := py_int (raw row 1 * H) in
      let w := py_int (raw row 2 * W) in
      let h := py_int (raw row 3 * H) in
      mkBox (py_int (inject_Z cx - inject_Z w / 2))
            (py_int (inject_Z cy - inject_Z h / 2)) w h
  end.

Definition row_candidate (d : Decoder) (row : Row) : Candidate :=
  mkCandidate (row_classId d row) (row_confidence d row) (row_box d row).

(** The test [confidence > self.confThreshold]. *)
Definition above_threshold (d : Decoder) (row : Row) : bool :=
  Qgtb (row_confidence d row) (confThreshold self).

(** One iteration, when it does not raise. *)
Definition step (d : Decoder) (acc : Acc) (row : Row) : Acc :=
  if above_threshold d row then
    append3 acc (row_classId d row) (row_confidence d row) (row_box d row)
  else acc.

(** Rows long enough for every index the loop body reads. *)
Definition well_formed (d : Decoder) (row : Row) : Prop :=
  match d with
  | Region => (6 <= List.length row)%nat
  | _ => (7 <= List.length row)%nat
  end.

End RowView.

(** The three lists have one entry per candidate. *)
Definition aligned (acc : Acc) : Prop :=
  List.length (classIds acc) = List.length (boxes acc) /\
  List.length (confidences acc) = List.length (boxes acc).

(** ** Vocabulary of the properties *)

(** [l1] is [l2] with some of its elements taken out, the others in place. *)
Inductive subseq {A : Type} : list A -> list A -> Prop :=
| subseq_nil : subseq [] []
| subseq_skip (x : A) (l1 l2 : list A) : subseq l1 l2 -> subseq l1 (x :: l2)
| subseq_keep (x : A) (l1 l2 : list A) : subseq l1 l2 -> subseq (x :: l1) (x :: l2).

(** Scores never increase along the list. *)
Definition descending {A : Type} (score_of : A -> Q) : list A -> Prop :=
  StronglySorted (fun x y => (score_of y <= score_of x)%Q).

(** No element overlaps one placed before it by [t] or more. *)
Definition independent {A : Type} (box_of : A -> Box) (t : Q) (l : list A) : Prop :=
  forall p c s, l = p ++ c :: s ->
  forall k, In k p -> (iou (box_of c) (box_of k) < t)%Q.

(** The candidate [postprocess] draws for the index [i] returned by
    [NMSBoxes]: [classIds[i]], [confidences[i]], [boxes[i]]. *)
Definition candidate_at (acc : Acc) (i : nat) : Candidate :=
  mkCandidate (nth i (classIds acc) 0) (nth i (confidences acc) 0%Q)
    (nth i (boxes acc) (mkBox 0 0 0 0)).

(** What [drawPred] adds to the trace for a candidate when no class names
    are loaded. *)
Definition drawn (c : Candidate) : list event :=
  [DrawBox (left (box c)) (top (box c))
     (left (box c) + width (box c)) (top (box c) + height (box c));
   DrawLabel None (confidence c)].

(** The loop the [if]/[elif] chain of [postprocess] runs for a network. *)
Definition selected (net : Net) : option Decoder :=
  if has_im_info net then Some ImInfo
  else if String.eqb (lastLayerType net) "DetectionOutput" then Some DetectionOutput
  else if String.eqb (lastLayerType net) "Region" then Some Region
  else None.

(** The rows a loop gets through without raising: for the box-style loops,
    a confidence to read and, above the threshold, all seven positions;
    for the ['Region'] loop, at least one score after the first five
    positions. *)
Definition decodable (self : PyDetectionDNN) (d : Decoder) (row : Row) : Prop :=
  match d with
  | Region => (6 <= List.length row)%nat
  | _ =>
      (3 <= List.length row)%nat /\
      (above_threshold self d row = true -> (7 <= List.length row)%nat)
  end.

(** The exception a loop raises on a row it does not get through. *)
Definition row_error (d : Decoder) : exn :=
  match d with
  | Region => ValueError
  | _ => IndexError
  end.

(** The lists of [a] followed by those of [b]. *)
Definition acc_app (a b : Acc) : Acc :=
  mkAcc (classIds a ++ classIds b) (confidences a ++ confidences b)
        (boxes a ++ boxes b).

(** The events [postprocess] can add to the trace. *)
Definition postprocess_event (e : event) : Prop :=
  match e with
  | LERROR _ | CallNMSBoxes _ _ | DrawBox _ _ _ _ | DrawLabel _ _ => True
  | _ => False
  end.

(** [m] keeps the trace it is given and adds events that satisfy [P] only. *)
Definition extends_with {A : Type} (P : event -> Prop) (m : io A) : Prop :=
  forall tr, exists added, fst (m tr) = tr ++ added /\ Forall P added.

(** * Properties *)

(** ** Numbers *)

Lemma Qgtb_lt (a b : Q) : Qgtb a b = true <-> (b < a)%Q.
Proof.
  unfold Qgtb. rewrite negb_true_iff. split; intro H.
  - apply Qnot_le_lt. intro Hle. apply Qle_bool_iff in Hle. congruence.
  - destruct (Qle_bool a b) eqn:E; [|reflexivity].
    apply Qle_bool_iff in E. exfalso. exact (Qlt_not_le _ _ H E).
Qed.

Lemma Qgtb_le (a b : Q) : Qgtb a b = false <-> (a <= b)%Q.
Proof.
  unfold Qgtb. rewrite negb_false_iff. apply Qle_bool_iff.
Qed.

(** ** The loops *)

Lemma getitem_raw (row : Row) (i : nat) (x : Q) :
  getitem row i = Ok x -> raw row i = x.
Proof.
  unfold getitem, raw. destruct (nth_error row i) eqn:E; [|discriminate].
  intro H. injection H as <-. now apply nth_error_nth.
Qed.

Lemma getitem_total {A : Type} (l : list A) (i : nat) :
  (i < List.length l)%nat -> exists x, getitem l i = Ok x.
Proof.
  intro H. unfold getitem. destruct (nth_error l i) eqn:E.
  - now exists a.
  - apply nth_error_None in E. lia.
Qed.

(** Case analysis on the next [getitem] of a loop body. *)
Ltac step_getitem :=
  match goal with
  | |- context [getitem ?l ?i] =>
      let E := fresh "E" in
      destruct (getitem l i) eqn:E; cbn [bind];
      [apply getitem_raw in E; subst | try discriminate]
  end.

Section LoopFacts.

Variable self : PyDetectionDNN.
Variable frame : Frame.

Lemma np_argmax_row (row : Row) (i : nat) :
  np_argmax (skipn 5 row) = Ok i -> i = row_argmax row.
Proof.
  unfold np_argmax, row_argmax. destruct (skipn 5 row) as [|x rest]; [discriminate|].
  intro H. injection H as <-. reflexivity.
Qed.

(** A loop body that returns has done what [step] says. *)
Lemma body_step (d : Decoder) (row : Row) (acc acc' : Acc) :
  body_of self frame d row acc = Ok acc' -> acc' = step self frame d acc row.
Proof.
  destruct d;
    unfold step, above_threshold, row_confidence, row_classId, row_box, body_of.
  - unfold im_info_body. step_getitem.
    destruct (Qgtb (raw row 2) (confThreshold self)); [|congruence].
    repeat step_getitem. congruence.
  - unfold detection_output_body. step_getitem.
    destruct (Qgtb (raw row 2) (confThreshold self)); [|congruence].
    repeat step_getitem. congruence.
  - unfold region_body.
    destruct (np_argmax (skipn 5 row)) as [i|] eqn:Ei; cbn [bind]; [|discriminate].
    apply np_argmax_row in Ei. subst i.
    step_getitem.
    destruct (Qgtb (raw (skipn 5 row) (row_argmax row)) (confThreshold self));
      [|congruence].
    repeat step_getitem. congruence.
Qed.

Lemma argmax_from_bound (l : list Q) (best_i i : nat) (best : Q) :
  (best_i < i)%nat -> (argmax_from best_i best i l < i + List.length l)%nat.
Proof.
  revert best_i i best. induction l as [|x rest IH]; intros best_i i best Hlt; simpl.
  - lia.
  - destruct (Qgtb x best).
    + specialize (IH i (S i) x). lia.
    + specialize (IH best_i (S i) best). lia.
Qed.

Lemma row_argmax_bound (row : Row) :
  (6 <= List.length row)%nat ->
  (row_argmax row < List.length (skipn 5 row))%nat.
Proof.
  intro H. unfold row_argmax.
  destruct (skipn 5 row) as [|x rest] eqn:E.
  - assert (Hl : List.length (skipn 5 row) = 0%nat) by now rewrite E.
    rewrite length_skipn in Hl. lia.
  - unfold raw. simpl. pose proof (argmax_from_bound rest 0 1 x). lia.
Qed.

(** The next [getitem] of a loop body, when the index is within the row. *)
Ltac getitem_ok :=
  match goal with
  | |- context [getitem ?l ?i] =>
      let x := fresh "x" in
      let E := fresh "E" in
      let H := fresh "H" in
      assert (H : (i < List.length l)%nat) by (simpl in *; lia);
      destruct (getitem_total l i H) as [x E];
      rewrite E; cbn [bind]; apply getitem_raw in E; subst; clear H
  end.

(** On a row that is long enough the loop body does not raise. *)
Lemma body_total (d : Decoder) (row : Row) (acc : Acc) :
  well_formed d row -> body_of self frame d row acc = Ok (step self frame d acc row).
Proof.
  destruct d;
    unfold well_formed, step, above_threshold, row_confidence, row_classId,
      row_box, body_of; intro Hwf.
  - unfold im_info_body. getitem_ok.
    destruct (Qgtb (raw row 2) (confThreshold self)); [|reflexivity].
    repeat getitem_ok. reflexivity.
  - unfold detection_output_body. getitem_ok.
    destruct (Qgtb (raw row 2) (confThreshold self)); [|reflexivity].
    repeat getitem_ok. reflexivity.
  - unfold region_body.
    pose proof (row_argmax_bound row Hwf) as Hb.
    destruct (np_argmax (skipn 5 row)) as [i|e] eqn:Ei.
    + apply np_argmax_row in Ei. subst i. cbn [bind].
      destruct (getitem_total (skipn 5 row) (row_argmax row) Hb) as [c Ec].
      rewrite Ec. cbn [bind]. apply getitem_raw in Ec. subst c.
      destruct (Qgtb (raw (skipn 5 row) (row_argmax row)) (confThreshold self));
        [|reflexivity].
      repeat getitem_ok. reflexivity.
    + unfold np_argmax in Ei. destruct (skipn 5 row); [simpl in Hb; lia | discriminate].
Qed.

Lemma for_each_step (d : Decoder) (rows : list Row) (acc acc' : Acc) :
  for_each (body_of self frame d) rows acc = Ok acc' ->
  acc' = fold_left (step self frame d) rows acc.
Proof.
  revert acc. induction rows as [|row rows IH]; intros acc H; simpl in *.
  - congruence.
  - destruct (body_of self frame d row acc) as [acc1|e] eqn:E; [|discriminate].
    apply body_step in E. subst acc1. now apply IH.
Qed.

Lemma for_each_total (d : Decoder) (rows : list Row) (acc : Acc) :
  Forall (well_formed d) rows ->
  for_each (body_of self frame d) rows acc = Ok (fold_left (step self frame d) rows acc).
Proof.
  intro H. revert acc. induction H as [|row rows Hrow _ IH]; intro acc; simpl.
  - reflexivity.
  - rewrite (body_total d row acc Hrow). apply IH.
Qed.

Lemma nested_step (d : Decoder) (outs : list Blob) (acc acc' : Acc) :
  for_each (fun out a => for_each (body_of self frame d) out a) outs acc = Ok acc' ->
  acc' = fold_left (step self frame d) (concat outs) acc.
Proof.
  revert acc. induction outs as [|out outs IH]; intros acc H; simpl in *.
  - congruence.
  - destruct (for_each (body_of self frame d) out acc) as [acc1|e] eqn:E;
      [|discriminate].
    apply for_each_step in E. subst acc1.
    rewrite fold_left_app. now apply IH.
Qed.

Lemma nested_total (d : Decoder) (outs : list Blob) (acc : Acc) :
  Forall (Forall (well_formed d)) outs ->
  for_each (fun out a => for_each (body_of self frame d) out a) outs acc =
  Ok (fold_left (step self frame d) (concat outs) acc).
Proof.
  intro H. revert acc. induction H as [|out outs Hout _ IH]; intro acc; simpl.
  - reflexivity.
  - rewrite (for_each_total d out acc Hout). cbn [bind].
    rewrite fold_left_app. apply IH.
Qed.

(** What [decode] returns, when it returns: the rows folded with [step]. *)
Lemma decode_step (d : Decoder) (outs : list Blob) (acc : Acc) :
  decode self frame d outs = Ok acc ->
  acc = fold_left (step self frame d) (concat outs) empty_acc.
Proof. apply nested_step. Qed.

(** [decode] returns on blobs whose rows are long enough. *)
Lemma decode_total (d : Decoder) (outs : list Blob) :
  Forall (Forall (well_formed d)) outs ->
  decode self frame d outs = Ok (fold_left (step self frame d) (concat outs) empty_acc).
Proof. apply nested_total. Qed.

Lemma candidates3_app (cs : list Z) (fs : list Q) (bs : list Box)
    (c : Z) (f : Q) (b : Box) :
  List.length cs = List.length bs -> List.length fs = List.length bs ->
  candidates3 (cs ++ [c]) (fs ++ [f]) (bs ++ [b]) =
  candidates3 cs fs bs ++ [mkCandidate c f b].
Proof.
  revert fs bs. induction cs as [|c0 cs IH]; intros [|f0 fs] [|b0 bs] H1 H2;
    simpl in *; try discriminate; try reflexivity.
  f_equal. apply IH; lia.
Qed.

Lemma step_aligned (d : Decoder) (acc : Acc) (row : Row) :
  aligned acc -> aligned (step self frame d acc row).
Proof.
  unfold aligned, step. intros [H1 H2].
  destruct (above_threshold self d row); simpl; [|tauto].
  rewrite !length_app. simpl. lia.
Qed.

Lemma step_candidates (d : Decoder) (acc : Acc) (row : Row) :
  aligned acc ->
  candidates (step self frame d acc row) =
  candidates acc ++
    (if above_threshold self d row then [row_candidate frame d row] else []).
Proof.
  unfold aligned, step, candidates. intros [H1 H2].
  destruct (above_threshold self d row); simpl.
  - now apply candidates3_app.
  - now rewrite app_nil_r.
Qed.

Lemma fold_step_candidates (d : Decoder) (rows : list Row) (acc : Acc) :
  aligned acc ->
  aligned (fold_left (step self frame d) rows acc) /\
  candidates (fold_left (step self frame d) rows acc) =
  candidates acc ++
    map (row_candidate frame d) (filter (above_threshold self d) rows).
Proof.
  revert acc. induction rows as [|row rows IH]; intros acc Hal; simpl.
  - split; [assumption | now rewrite app_nil_r].
  - destruct (IH _ (step_aligned d acc row Hal)) as [Hal' Hc]. split; [assumption|].
    rewrite Hc, (step_candidates d acc row Hal).
    rewrite <- app_assoc. f_equal.
    now destruct (above_threshold self d row).
Qed.

(** The candidates of a decoding that returns, row by row: one candidate
    for each row above the threshold, in the order of the rows. *)
Lemma decode_candidates (d : Decoder) (outs : list Blob) (acc : Acc) :
  decode self frame d outs = Ok acc ->
  aligned acc /\
  candidates acc =
  map (row_candidate frame d) (filter (above_threshold self d) (concat outs)).
Proof.
  intro H. apply decode_step in H. subst acc.
  apply (fold_step_candidates d (concat outs) empty_acc).
  split; reflexivity.
Qed.

Lemma candidates3_fields (cs : list Z) (fs : list Q) (bs : list Box) :
  List.length cs = List.length bs -> List.length fs = List.length bs ->
  map classId (candidates3 cs fs bs) = cs /\
  map confidence (candidates3 cs fs bs) = fs /\
  map box (candidates3 cs fs bs) = bs.
Proof.
  revert fs bs. induction cs as [|c0 cs IH]; intros [|f0 fs] [|b0 bs] H1 H2;
    simpl in *; try discriminate; try (repeat split; reflexivity).
  destruct (IH fs bs) as (Hc & Hf & Hb); try lia.
  repeat split; f_equal; assumption.
Qed.

(** The three lists are the three fields of the candidates. *)
Lemma aligned_fields (acc : Acc) :
  aligned acc ->
  classIds acc = map classId (candidates acc) /\
  confidences acc = map confidence (candidates acc) /\
  boxes acc = map box (candidates acc).
Proof.
  intros [H1 H2]. destruct (candidates3_fields _ _ _ H1 H2) as (Hc & Hf & Hb).
  unfold candidates. repeat split; symmetry; assumption.
Qed.

End LoopFacts.

Lemma map_filter_comm {A B : Type} (f : A -> B) (p : B -> bool) (l : list A) :
  map f (filter (fun x => p (f x)) l) = filter p (map f l).
Proof.
  induction l as [|x l IH]; simpl; [reflexivity|].
  destruct (p (f x)); simpl; now rewrite IH.
Qed.

Lemma Forall2_map_filter {A B : Type} (f : A -> B) (p : A -> bool)
    (R : A -> B -> Prop) (l : list A) :
  (forall x, p x = true -> R x (f x)) ->
  Forall2 R (filter p l) (map f (filter p l)).
Proof.
  intro H. induction l as [|x l IH]; simpl; [constructor|].
  destruct (p x) eqn:E; simpl; [constructor; auto | assumption].
Qed.

(** ** The confidence filter *)

(** C5: whichever decoder runs, every candidate of its output has a
    confidence strictly above the threshold, so none with a confidence less
    than or equal to it appears; the confidences emitted are those of the
    rows that pass [confidence > confThreshold], in the order of the rows. *)
Theorem decode_confidence_strictly_above
    (self : PyDetectionDNN) (frame : Frame) (d : Decoder)
    (outs : list Blob) (acc : Acc) :
  decode self frame d outs = Ok acc ->
  Forall (fun c => ~ (confidence c <= confThreshold self)%Q) (candidates acc) /\
  confidences acc =
    filter (fun c => Qgtb c (confThreshold self))
      (map (row_confidence d) (concat outs)).
Proof.
  intro H. destruct (decode_candidates self frame d outs acc H) as [Hal Hc].
  split.
  - rewrite Hc. apply Forall_forall. intros c Hin.
    apply in_map_iff in Hin. destruct Hin as (row & <- & Hrow).
    apply filter_In in Hrow. destruct Hrow as [_ Hab].
    unfold above_threshold in Hab. apply Qgtb_lt in Hab.
    simpl. intro Hle. exact (Qlt_not_le _ _ Hab Hle).
  - destruct (aligned_fields acc Hal) as (_ & Hf & _).
    rewrite Hf, Hc, map_map. simpl.
    apply (map_filter_comm (row_confidence d)
             (fun c => Qgtb c (confThreshold self))).
Qed.

Lemma decode_confidence_strictly_above_witness :
  decode (default_self None) (mkFrame 480 640) ImInfo
    [[[0; 3; 1 # 2; 10; 10; 50; 50]%Q; [0; 3; 6 # 10; 10; 10; 50; 50]%Q]]
  = Ok (mkAcc [2] [6 # 10]%Q [mkBox 10 10 41 41]) /\
  Forall (fun c => ~ (confidence c <= 1 # 2)%Q)
    (candidates (mkAcc [2] [6 # 10]%Q [mkBox 10 10 41 41])).
Proof.
  split; [reflexivity|].
  exact (proj1 (decode_confidence_strictly_above (default_self None)
                  (mkFrame 480 640) ImInfo
                  [[[0; 3; 1 # 2; 10; 10; 50; 50]%Q; [0; 3; 6 # 10; 10; 10; 50; 50]%Q]]
                  (mkAcc [2] [6 # 10]%Q [mkBox 10 10 41 41]) eq_refl)).
Defined.

(** ** Class ids of the box-style decoders *)

(** C4: in the Faster-RCNN and ['DetectionOutput'] loops the candidate of a
    row carries the row's class id, [int(detection[1])], minus 1; it is
    never the raw id itself, and a raw background id 0 comes out as -1. *)
Theorem box_decoders_subtract_background
    (self : PyDetectionDNN) (frame : Frame) (d : Decoder)
    (outs : list Blob) (acc : Acc) :
  d <> Region ->
  decode self frame d outs = Ok acc ->
  Forall2
    (fun row c =>
       classId c = py_int (raw row 1) - 1 /\
       classId c <> py_int (raw row 1) /\
       (py_int (raw row 1) = 0 -> classId c = -1))
    (filter (fun row => Qgtb (raw row 2) (confThreshold self)) (concat outs))
    (candidates acc) /\
  classIds acc = map classId (candidates acc).
Proof.
  intros Hd H. destruct (decode_candidates self frame d outs acc H) as [Hal Hc].
  split; [|exact (proj1 (aligned_fields acc Hal))].
  rewrite Hc.
  assert (Hsame : above_threshold self d =
                  fun row => Qgtb (raw row 2) (confThreshold self))
    by (destruct d; [reflexivity | reflexivity | congruence]).
  rewrite Hsame. apply Forall2_map_filter. intros row _.
  destruct d; try congruence; simpl; repeat split; lia.
Qed.

Lemma box_decoders_subtract_background_witness :
  DetectionOutput <> Region /\
  decode (default_self None) (mkFrame 480 640) DetectionOutput
    [[[0; 0; 9 # 10; 1 # 10; 2 # 10; 5 # 10; 6 # 10]%Q]]
  = Ok (mkAcc [-1] [9 # 10]%Q [mkBox 64 96 257 193]) /\
  classIds (mkAcc [-1] [9 # 10]%Q [mkBox 64 96 257 193]) =
  map classId (candidates (mkAcc [-1] [9 # 10]%Q [mkBox 64 96 257 193])).
Proof.
  split; [discriminate|]. split; [reflexivity|].
  refine (proj2 (box_decoders_subtract_background (default_self None)
                   (mkFrame 480 640) DetectionOutput
                   [[[0; 0; 9 # 10; 1 # 10; 2 # 10; 5 # 10; 6 # 10]%Q]]
                   (mkAcc [-1] [9 # 10]%Q [mkBox 64 96 257 193]) _ eq_refl)).
  discriminate.
Defined.

(** ** Box geometry *)

(** C1, as stated, fails: the Faster-RCNN loop keeps a row whose right
    and bottom edges lie before its left and top edges, and appends a box
    of width -4 and height -4. *)
Lemma degenerate_box_is_emitted :
  exists acc b,
    decode (default_self None) (mkFrame 480 640) ImInfo
      [[[0; 1; 9 # 10; 10; 10; 5; 5]%Q]] = Ok acc /\
    In b (boxes acc) /\ width b <= 0 /\ height b <= 0.
Proof.
  exists (mkAcc [0] [9 # 10]%Q [mkBox 10 10 (-4) (-4)]), (mkBox 10 10 (-4) (-4)).
  split; [reflexivity|]. split; [now left|]. simpl. lia.
Qed.

(** C1, amended: no decoder drops a box for its size.  Each decoder appends
    one box for each row above the confidence threshold, with the width and
    height computed from the row, so its output holds a box of non-positive
    width or height exactly when such a row yields one; when every row
    above the threshold yields positive width and height, so does every box
    of the output. *)
Theorem decode_boxes_follow_rows
    (self : PyDetectionDNN) (frame : Frame) (d : Decoder)
    (outs : list Blob) (acc : Acc) :
  decode self frame d outs = Ok acc ->
  boxes acc =
    map (row_box frame d) (filter (above_threshold self d) (concat outs)) /\
  (Exists (fun b => width b <= 0 \/ height b <= 0) (boxes acc) <->
   Exists (fun row =>
             above_threshold self d row = true /\
             (width (row_box frame d row) <= 0 \/
              height (row_box frame d row) <= 0)) (concat outs)) /\
  (Forall (fun row =>
             above_threshold self d row = true ->
             0 < width (row_box frame d row) /\
             0 < height (row_box frame d row)) (concat outs) ->
   Forall (fun b => 0 < width b /\ 0 < height b) (boxes acc)).
Proof.
  intro H. destruct (decode_candidates self frame d outs acc H) as [Hal Hc].
  destruct (aligned_fields acc Hal) as (_ & _ & Hb).
  assert (Hboxes : boxes acc =
            map (row_box frame d) (filter (above_threshold self d) (concat outs))).
  { rewrite Hb, Hc, map_map. reflexivity. }
  split; [exact Hboxes|]. rewrite Hboxes. split; [split|].
  - intro He. apply Exists_exists in He. destruct He as (b & Hin & Hdeg).
    apply in_map_iff in Hin. destruct Hin as (row & <- & Hrow).
    apply filter_In in Hrow. destruct Hrow as [Hin Hab].
    apply Exists_exists. exists row. auto.
  - intro He. apply Exists_exists in He. destruct He as (row & Hin & Hab & Hdeg).
    apply Exists_exists. exists (row_box frame d row). split; [|exact Hdeg].
    apply in_map. apply filter_In. auto.
  - intro Hall. apply Forall_forall. intros b Hin.
    apply in_map_iff in Hin. destruct Hin as (row & <- & Hrow).
    apply filter_In in Hrow. destruct Hrow as [Hin Hab].
    rewrite Forall_forall in Hall. exact (Hall row Hin Hab).
Qed.

Lemma decode_boxes_follow_rows_witness :
  decode (default_self None) (mkFrame 480 640) Region
    [[[1 # 2; 1 # 2; 1 # 5; 1 # 5; 0; 1 # 10; 8 # 10]%Q]]
  = Ok (mkAcc [1] [8 # 10]%Q [mkBox 256 192 128 96]) /\
  boxes (mkAcc [1] [8 # 10]%Q [mkBox 256 192 128 96]) =
    map (row_box (mkFrame 480 640) Region)
      (filter (above_threshold (default_self None) Region)
         (concat [[[1 # 2; 1 # 2; 1 # 5; 1 # 5; 0; 1 # 10; 8 # 10]%Q]])).
Proof.
  split; [reflexivity|].
  exact (proj1 (decode_boxes_follow_rows (default_self None) (mkFrame 480 640)
                  Region [[[1 # 2; 1 # 2; 1 # 5; 1 # 5; 0; 1 # 10; 8 # 10]%Q]]
                  (mkAcc [1] [8 # 10]%Q [mkBox 256 192 128 96]) eq_refl)).
Defined.

(** The width and height the box-style loops compute. *)
Lemma row_box_extent (frame : Frame) (row : Row) :
  let W := inject_Z (frameWidth frame) in
  let H := inject_Z (frameHeight frame) in
  width (row_box frame ImInfo row) = py_int (raw row 5) - py_int (raw row 3) + 1 /\
  height (row_box frame ImInfo row) = py_int (raw row 6) - py_int (raw row 4) + 1 /\
  width (row_box frame DetectionOutput row) =
    py_int (raw row 5 * W) - py_int (raw row 3 * W) + 1 /\
  height (row_box frame DetectionOutput row) =
    py_int (raw row 6 * H) - py_int (raw row 4 * H) + 1 /\
  width (row_box frame Region row) = py_int (raw row 2 * W) /\
  height (row_box frame Region row) = py_int (raw row 3 * H).
Proof. repeat split. Qed.

(** C3, as stated, fails: on a 10x10 frame the raw left edge 0.19 scales
    to 1.9; the loop appends left = 1, the nearest integer is 2. *)
Lemma detection_output_does_not_round :
  exists b,
    decode (default_self None) (mkFrame 10 10) DetectionOutput
      [[[0; 5; 9 # 10; 19 # 100; 2 # 10; 5 # 10; 6 # 10]%Q]]
    = Ok (mkAcc [4] [9 # 10]%Q [b]) /\
    left b <> round_nearest ((19 # 100) * inject_Z (frameWidth (mkFrame 10 10))).
Proof.
  exists (mkBox 1 2 5 5). split; [reflexivity | discriminate].
Qed.

(** C3, amended: the ['DetectionOutput'] loop scales the raw coordinates by
    the frame size and truncates them toward zero ([int()]): on rows of at
    least 7 elements it returns, with one candidate for each row whose
    confidence exceeds the threshold, of class id [int(row[1]) - 1], left
    [int(row[3] * frameWidth)], top [int(row[4] * frameHeight)], width
    [int(row[5] * frameWidth) - left + 1] and height
    [int(row[6] * frameHeight) - top + 1].  On a 640x480 frame the row
    [[0, 5, 0.9, 0.1, 0.2, 0.5, 0.6]] gives the box (64, 96, 257, 193) and
    class id 4. *)
Theorem detection_output_scales_and_truncates
    (self : PyDetectionDNN) (frame : Frame) (outs : list Blob) :
  Forall (Forall (fun row : Row => (7 <= List.length row)%nat)) outs ->
  (exists acc,
     decode self frame DetectionOutput outs = Ok acc /\
     candidates acc =
       map (fun row =>
              let W := inject_Z (frameWidth frame) in
              let H := inject_Z (frameHeight frame) in
              let l := py_int (raw row 3 * W) in
              let t := py_int (raw row 4 * H) in
              mkCandidate (py_int (raw row 1) - 1) (raw row 2)
                (mkBox l t (py_int (raw row 5 * W) - l + 1)
                           (py_int (raw row 6 * H) - t + 1)))
           (filter (fun row => Qgtb (raw row 2) (confThreshold self))
              (concat outs))) /\
  decode (default_self None) (mkFrame 480 640) DetectionOutput
    [[[0; 5; 9 # 10; 1 # 10; 2 # 10; 5 # 10; 6 # 10]%Q]]
  = Ok (mkAcc [4] [9 # 10]%Q [mkBox 64 96 257 193]).
Proof.
  intro Hwf. split; [|reflexivity].
  pose proof (decode_total self frame DetectionOutput outs Hwf) as Hdec.
  eexists. split; [exact Hdec|].
  exact (proj2 (decode_candidates self frame DetectionOutput outs _ Hdec)).
Qed.

Lemma detection_output_scales_and_truncates_witness :
  Forall (Forall (fun row : Row => (7 <= List.length row)%nat))
    [[[0; 5; 9 # 10; 1 # 10; 2 # 10; 5 # 10; 6 # 10]%Q]] /\
  decode (default_self None) (mkFrame 480 640) DetectionOutput
    [[[0; 5; 9 # 10; 1 # 10; 2 # 10; 5 # 10; 6 # 10]%Q]]
  = Ok (mkAcc [4] [9 # 10]%Q [mkBox 64 96 257 193]).
Proof.
  assert (Hwf : Forall (Forall (fun row : Row => (7 <= List.length row)%nat))
                  [[[0; 5; 9 # 10; 1 # 10; 2 # 10; 5 # 10; 6 # 10]%Q]]).
  { repeat constructor. }
  split; [exact Hwf|].
  exact (proj2 (detection_output_scales_and_truncates (default_self None)
                  (mkFrame 480 640) _ Hwf)).
Defined.

(** ** The class of a ['Region'] row *)

Lemma raw_app_l (p l : list Q) (j : nat) :
  (j < List.length p)%nat -> raw (p ++ l) j = raw p j.
Proof. intro H. unfold raw. now apply app_nth1. Qed.

Lemma raw_app_last (p l : list Q) (x : Q) :
  raw (p ++ x :: l) (List.length p) = x.
Proof. unfold raw. rewrite app_nth2, Nat.sub_diag; [reflexivity | lia]. Qed.

(** Invariant of the scan: [best] is the first maximum of the prefix [p]
    already seen, at index [best_i]. *)
Lemma argmax_from_first_max (l p : list Q) (best_i : nat) (best : Q) :
  (best_i < List.length p)%nat ->
  raw p best_i = best ->
  (forall j, (j < List.length p)%nat -> (raw p j <= best)%Q) ->
  (forall j, (j < best_i)%nat -> (raw p j < best)%Q) ->
  let r := argmax_from best_i best (List.length p) l in
  (r < List.length (p ++ l))%nat /\
  (forall j, (j < List.length (p ++ l))%nat -> (raw (p ++ l) j <= raw (p ++ l) r)%Q) /\
  (forall j, (j < r)%nat -> (raw (p ++ l) j < raw (p ++ l) r)%Q).
Proof.
  revert p best_i best. induction l as [|x rest IH]; intros p best_i best Hb Hbest Hmax Hfirst.
  - simpl. rewrite app_nil_r. rewrite Hbest. auto.
  - cbn [argmax_from].
    assert (Hlen : List.length (p ++ [x]) = S (List.length p))
      by (rewrite length_app; simpl; lia).
    replace (p ++ x :: rest) with ((p ++ [x]) ++ rest)
      by (rewrite <- app_assoc; reflexivity).
    destruct (Qgtb x best) eqn:E.
    + apply Qgtb_lt in E.
      specialize (IH (p ++ [x]) (List.length p) x). rewrite Hlen in IH.
      apply IH.
      * lia.
      * apply raw_app_last.
      * intros j Hj.
        destruct (Nat.eq_dec j (List.length p)) as [->|Hne].
        -- rewrite raw_app_last. apply Qle_refl.
        -- rewrite raw_app_l by lia. apply Qlt_le_weak.
           apply Qle_lt_trans with best; [apply Hmax; lia | exact E].
      * intros j Hj. rewrite raw_app_l by lia.
        apply Qle_lt_trans with best; [apply Hmax; lia | exact E].
    + apply Qgtb_le in E.
      specialize (IH (p ++ [x]) best_i best). rewrite Hlen in IH.
      apply IH.
      * lia.
      * rewrite raw_app_l by lia. exact Hbest.
      * intros j Hj.
        destruct (Nat.eq_dec j (List.length p)) as [->|Hne].
        -- rewrite raw_app_last. exact E.
        -- rewrite raw_app_l by lia. apply Hmax. lia.
      * intros j Hj. rewrite raw_app_l by lia. now apply Hfirst.
Qed.

(** [np.argmax] returns the lowest index that holds the maximum. *)
Lemma np_argmax_first_maximum (scores : list Q) (i : nat) :
  np_argmax scores = Ok i ->
  (i < List.length scores)%nat /\
  (forall j, (j < List.length scores)%nat -> (raw scores j <= raw scores i)%Q) /\
  (forall j, (j < i)%nat -> (raw scores j < raw scores i)%Q).
Proof.
  unfold np_argmax. destruct scores as [|x rest]; [discriminate|].
  intro H. injection H as <-.
  apply (argmax_from_first_max rest [x] 0 x).
  - simpl. lia.
  - reflexivity.
  - intros j Hj. simpl in Hj. assert (j = 0%nat) as -> by lia. apply Qle_refl.
  - intros j Hj. lia.
Qed.

(** C2, the code at a row of 4 + 3 elements: the scores are read from
    index 5 on, so the element at index 4 (0.9, the largest) takes no part;
    the row yields class 1 with confidence 0.8, where an argmax over the
    elements from index 4 on yields class 0 with confidence 0.9. *)
Theorem region_scores_skip_index_4 :
  decode (default_self None) (mkFrame 480 640) Region
    [[[1 # 2; 1 # 2; 1 # 5; 1 # 5; 9 # 10; 1 # 10; 8 # 10]%Q]]
  = Ok (mkAcc [1] [8 # 10]%Q [mkBox 256 192 128 96]) /\
  np_argmax (skipn 4 [1 # 2; 1 # 2; 1 # 5; 1 # 5; 9 # 10; 1 # 10; 8 # 10]%Q) = Ok 0%nat.
Proof. split; reflexivity. Qed.

(** ** The frame cycle *)

Lemma emit_then {A : Type} (e : event) (k : io A) (tr : list event) :
  (emit e ;;; k) tr = k (tr ++ [e]).
Proof. reflexivity. Qed.

(** C7: when the network has no [im_info] input and its last layer is
    neither ['DetectionOutput'] nor ['Region'], [postprocess] logs one error
    that ends with the layer type and returns: no call to [NMSBoxes], no box
    and no label drawn, no exception.  [process] then finishes the cycle and
    sends the frame. *)
Theorem unknown_layer_type_is_logged_and_skipped
    (self : PyDetectionDNN) (net : Net) (frame : Frame)
    (outs : list Blob) (tr : list event) :
  has_im_info net = false ->
  lastLayerType net <> "DetectionOutput"%string ->
  lastLayerType net <> "Region"%string ->
  postprocess self net frame outs tr =
    (tr ++ [LERROR ("Unknown output layer type: " ++ lastLayerType net)%string],
     Ok tt) /\
  process self net frame outs tr =
    (tr ++ [GetCvBGR; TimerStart; BlobFromImage (inpWidth self) (inpHeight self);
            SetInputBlob; Forward;
            LERROR ("Unknown output layer type: " ++ lastLayerType net)%string;
            PutTitle; TimerStop; PutStatus;
            SendCv (frameHeight frame + 22) (frameWidth frame)],
     Ok tt).
Proof.
  intros Him Hdo Hre.
  apply String.eqb_neq in Hdo. apply String.eqb_neq in Hre.
  assert (Hpost : forall tr0,
            postprocess self net frame outs tr0 =
            (tr0 ++ [LERROR ("Unknown output layer type: " ++ lastLayerType net)%string],
             Ok tt)).
  { intro tr0. unfold postprocess, decode_outs, io_bind.
    rewrite Him, Hdo, Hre. reflexivity. }
  split; [apply Hpost|].
  unfold process. rewrite Him. rewrite !emit_then.
  unfold io_bind at 1. unfold io_ret at 1. rewrite emit_then.
  unfold io_bind at 1. rewrite Hpost. rewrite !emit_then. unfold emit.
  rewrite <- !app_assoc. reflexivity.
Qed.

Lemma unknown_layer_type_is_logged_and_skipped_witness :
  has_im_info (mkNet false "Softmax") = false /\
  lastLayerType (mkNet false "Softmax") <> "DetectionOutput"%string /\
  lastLayerType (mkNet false "Softmax") <> "Region"%string /\
  postprocess (default_self None) (mkNet false "Softmax") (mkFrame 480 640)
    [[[0; 5; 9 # 10; 1 # 10; 2 # 10; 5 # 10; 6 # 10]%Q]] [] =
    ([LERROR "Unknown output layer type: Softmax"], Ok tt).
Proof.
  split; [reflexivity|]. split; [discriminate|]. split; [discriminate|].
  refine (proj1 (unknown_layer_type_is_logged_and_skipped (default_self None)
                   (mkNet false "Softmax") (mkFrame 480 640)
                   [[[0; 5; 9 # 10; 1 # 10; 2 # 10; 5 # 10; 6 # 10]%Q]] []
                   eq_refl _ _)); discriminate.
Defined.

(** C10: when the network has an [im_info] input, [process] raises
    [NameError] for [inpHeight], which is neither one of its locals nor a
    module global, right after resizing the frame: the network is not run
    and the frame is not sent. *)
Theorem im_info_cycle_raises_NameError
    (self : PyDetectionDNN) (net : Net) (frame : Frame)
    (outs : list Blob) (tr : list event) :
  has_im_info net = true ->
  process self net frame outs tr =
    (tr ++ [GetCvBGR; TimerStart; BlobFromImage (inpWidth self) (inpHeight self);
            SetInputBlob; Resize (inpWidth self) (inpHeight self)],
     Raise (NameError "inpHeight")) /\
  (forall tr', fst (process self net frame outs []) = tr' ->
     ~ In Forward tr' /\ forall rows cols, ~ In (SendCv rows cols) tr').
Proof.
  intro Him.
  assert (Hrun : forall tr0,
            process self net frame outs tr0 =
            (tr0 ++ [GetCvBGR; TimerStart;
                     BlobFromImage (inpWidth self) (inpHeight self);
                     SetInputBlob; Resize (inpWidth self) (inpHeight self)],
             Raise (NameError "inpHeight"))).
  { intro tr0. unfold process. rewrite Him. rewrite !emit_then.
    unfold io_bind, emit, lift. simpl. rewrite <- !app_assoc. reflexivity. }
  split; [apply Hrun|].
  intros tr' <-. rewrite Hrun. simpl. split.
  - intro H. repeat (destruct H as [H|H]; [discriminate|]). exact H.
  - intros rows cols H. repeat (destruct H as [H|H]; [discriminate|]). exact H.
Qed.

Lemma im_info_cycle_raises_NameError_witness :
  has_im_info (mkNet true "DetectionOutput") = true /\
  process (default_self None) (mkNet true "DetectionOutput") (mkFrame 480 640)
    [[[0; 5; 9 # 10; 10; 20; 50; 60]%Q]] [] =
    ([GetCvBGR; TimerStart; BlobFromImage 160 120; SetInputBlob; Resize 160 120],
     Raise (NameError "inpHeight")).
Proof.
  split; [reflexivity|].
  exact (proj1 (im_info_cycle_raises_NameError (default_self None)
                  (mkNet true "DetectionOutput") (mkFrame 480 640)
                  [[[0; 5; 9 # 10; 10; 20; 50; 60]%Q]] [] eq_refl)).
Defined.

(** ** Non-maximum suppression *)

Lemma intersection_area_sym (a b : Box) :
  intersection_area a b = intersection_area b a.
Proof.
  unfold intersection_area.
  rewrite (Z.min_comm (left a + width a)), (Z.max_comm (left a)).
  rewrite (Z.min_comm (top a + height a)), (Z.max_comm (top a)).
  reflexivity.
Qed.

Lemma iou_sym (a b : Box) : iou a b = iou b a.
Proof.
  unfold iou. rewrite (orb_comm (area a =? 0)).
  rewrite (intersection_area_sym a b), (Z.add_comm (area a)). reflexivity.
Qed.

Lemma subseq_refl {A : Type} (l : list A) : subseq l l.
Proof. induction l; constructor; assumption. Qed.

Lemma subseq_In {A : Type} (l1 l2 : list A) (x : A) :
  subseq l1 l2 -> In x l1 -> In x l2.
Proof.
  induction 1 as [|y l1 l2 _ IH|y l1 l2 _ IH]; simpl; intro Hin.
  - exact Hin.
  - right. now apply IH.
  - destruct Hin as [->|Hin]; [now left | right; now apply IH].
Qed.

Lemma StronglySorted_tail {A : Type} (R : A -> A -> Prop) (l1 l2 : list A) :
  StronglySorted R (l1 ++ l2) -> StronglySorted R l2.
Proof.
  induction l1 as [|x l1 IH]; simpl; intro H; [exact H|].
  inversion H; subst. auto.
Qed.

Section NMSFacts.

Variable A : Type.
Variable box_of : A -> Box.
Variable score_of : A -> Q.

Lemma insert_desc_perm (x : A) (l : list A) :
  Permutation (insert_desc score_of x l) (x :: l).
Proof.
  induction l as [|y rest IH]; simpl; [reflexivity|].
  destruct (Qgtb (score_of y) (score_of x)); [|reflexivity].
  rewrite IH. apply perm_swap.
Qed.

Lemma sort_desc_perm (l : list A) : Permutation (sort_desc score_of l) l.
Proof.
  induction l as [|x l IH]; simpl; [reflexivity|].
  rewrite insert_desc_perm. now apply perm_skip.
Qed.

Lemma insert_desc_sorted (x : A) (l : list A) :
  descending score_of l -> descending score_of (insert_desc score_of x l).
Proof.
  unfold descending. induction 1 as [|y rest Hs IH Hall]; simpl.
  - repeat constructor.
  - destruct (Qgtb (score_of y) (score_of x)) eqn:E.
    + constructor; [exact IH|].
      apply Forall_forall. intros z Hz.
      apply (Permutation_in z (insert_desc_perm x rest)) in Hz.
      destruct Hz as [<-|Hz].
      * apply Qgtb_lt in E. now apply Qlt_le_weak.
      * rewrite Forall_forall in Hall. now apply Hall.
    + apply Qgtb_le in E. constructor.
      * now constructor.
      * constructor; [exact E|].
        eapply Forall_impl; [|exact Hall]. simpl.
        intros z Hz. now apply Qle_trans with (score_of y).
Qed.

Lemma sort_desc_sorted (l : list A) : descending score_of (sort_desc score_of l).
Proof.
  induction l as [|x l IH]; simpl.
  - constructor.
  - now apply insert_desc_sorted.
Qed.

(** Candidates of equal score keep their order. *)
Lemma insert_desc_stable (q : Q) (x : A) (l : list A) :
  filter (fun c => Qeq_bool (score_of c) q) (insert_desc score_of x l) =
  filter (fun c => Qeq_bool (score_of c) q) (x :: l).
Proof.
  induction l as [|y rest IH]; [reflexivity|].
  cbn [insert_desc].
  destruct (Qgtb (score_of y) (score_of x)) eqn:E; [|reflexivity].
  apply Qgtb_lt in E.
  cbn [filter] in *. rewrite IH.
  destruct (Qeq_bool (score_of x) q) eqn:Ex; [|reflexivity].
  destruct (Qeq_bool (score_of y) q) eqn:Ey; [|reflexivity].
  apply Qeq_bool_iff in Ex. apply Qeq_bool_iff in Ey.
  exfalso. rewrite Ex, Ey in E. exact (Qlt_irrefl _ E).
Qed.

Lemma sort_desc_stable (q : Q) (l : list A) :
  filter (fun c => Qeq_bool (score_of c) q) (sort_desc score_of l) =
  filter (fun c => Qeq_bool (score_of c) q) l.
Proof.
  induction l as [|x l IH]; [reflexivity|].
  cbn [sort_desc fold_right]. fold (sort_desc score_of l).
  rewrite insert_desc_stable. cbn [filter]. now rewrite IH.
Qed.

(** Sorting a list that is already in descending order changes nothing. *)
Lemma sort_desc_fixed (l : list A) : descending score_of l -> sort_desc score_of l = l.
Proof.
  unfold descending. induction 1 as [|x rest Hs IH Hall]; [reflexivity|].
  cbn [sort_desc fold_right]. fold (sort_desc score_of rest). rewrite IH.
  destruct rest as [|y rest']; [reflexivity|].
  cbn [insert_desc].
  inversion Hall as [|? ? Hy _]; subst.
  apply Qgtb_le in Hy. now rewrite Hy.
Qed.

Lemma subseq_desc (l1 l2 : list A) : subseq l1 l2 -> descending score_of l2 -> descending score_of l1.
Proof.
  unfold descending. induction 1 as [|y l1 l2 Hsub IH|y l1 l2 Hsub IH]; intro Hd.
  - constructor.
  - inversion Hd; subst. auto.
  - inversion Hd as [|? ? Hs Hall]; subst. constructor; [auto|].
    apply Forall_forall. intros z Hz.
    rewrite Forall_forall in Hall. apply Hall.
    now apply (subseq_In l1 l2).
Qed.

Lemma suppressed_app (t : Q) (k1 k2 : list A) (c : A) :
  suppressed box_of t (k1 ++ k2) c =
  suppressed box_of t k1 c || suppressed box_of t k2 c.
Proof. unfold suppressed. apply existsb_app. Qed.

Lemma suppressed_false (t : Q) (kept : list A) (c : A) :
  suppressed box_of t kept c = false <->
  forall k, In k kept -> (iou (box_of c) (box_of k) < t)%Q.
Proof.
  unfold suppressed. split.
  - intros H k Hin. apply Qnot_le_lt. intro Hle.
    apply Qle_bool_iff in Hle.
    assert (Ht : existsb (fun k0 => Qle_bool t (iou (box_of c) (box_of k0))) kept = true)
      by (apply existsb_exists; eauto).
    congruence.
  - intro H. destruct (existsb _ kept) eqn:E; [|reflexivity].
    apply existsb_exists in E. destruct E as (k & Hin & Hle).
    apply Qle_bool_iff in Hle. exfalso.
    exact (Qlt_not_le _ _ (H k Hin) Hle).
Qed.

Lemma suppressed_true (t : Q) (kept : list A) (c : A) :
  suppressed box_of t kept c = true <->
  exists k, In k kept /\ (t <= iou (box_of c) (box_of k))%Q.
Proof.
  unfold suppressed. rewrite existsb_exists.
  split; intros (k & Hin & H); exists k; split; auto; now apply Qle_bool_iff.
Qed.

(** The greedy pass, from any list [kept] of candidates already kept: it
    returns [kept] followed by a selection [r] of [todo]; a selected
    candidate overlaps nothing kept before it by [t] or more, and a
    candidate left out overlaps, by [t] or more, a candidate that was kept
    before its turn. *)
Lemma greedy_selects (t : Q) (todo kept : list A) :
  exists r,
    greedy box_of t kept todo = kept ++ r /\
    subseq r todo /\
    (forall p c s, r = p ++ c :: s -> suppressed box_of t (kept ++ p) c = false) /\
    (forall c, In c todo -> ~ In c r ->
       exists k, In k (kept ++ r) /\ (t <= iou (box_of c) (box_of k))%Q /\
                 (In k kept \/ exists p s, todo = p ++ c :: s /\ In k p)).
Proof.
  revert kept. induction todo as [|c rest IH]; intro kept; cbn [greedy].
  - exists []. rewrite app_nil_r. repeat split.
    + constructor.
    + intros p c s H. destruct p; discriminate.
    + intros c [].
  - destruct (suppressed box_of t kept c) eqn:E.
    + destruct (IH kept) as (r & Hg & Hsub & Hind & Hmax).
      exists r. repeat split; auto.
      * now constructor.
      * intros c' Hin Hout. destruct Hin as [<-|Hin].
        -- apply suppressed_true in E. destruct E as (k & Hk & Hle).
           exists k. repeat split; auto. apply in_or_app. now left.
        -- destruct (Hmax c' Hin Hout) as (k & Hk & Hle & Hpos).
           exists k. repeat split; auto.
           destruct Hpos as [Hpos|(p & s & -> & Hp)]; [now left|].
           right. exists (c :: p), s. split; [reflexivity | now right].
    + destruct (IH (kept ++ [c])) as (r & Hg & Hsub & Hind & Hmax).
      exists (c :: r). repeat split.
      * rewrite Hg, <- app_assoc. reflexivity.
      * now constructor.
      * intros p c' s H. destruct p as [|c0 p].
        -- injection H as <- _. now rewrite app_nil_r.
        -- injection H as <- ->.
           specialize (Hind p c' s eq_refl).
           now rewrite <- app_assoc in Hind.
      * intros c' Hin Hout. destruct Hin as [<-|Hin]; [exfalso; apply Hout; now left|].
        assert (Hout' : ~ In c' r) by (intro; apply Hout; now right).
        destruct (Hmax c' Hin Hout') as (k & Hk & Hle & Hpos).
        exists k. rewrite <- app_assoc in Hk. repeat split; auto.
        destruct Hpos as [Hpos|(p & s & -> & Hp)].
        -- apply in_app_or in Hpos. destruct Hpos as [Hpos|[<-|[]]]; [now left|].
           right. apply in_split in Hin. destruct Hin as (p & s & ->).
           exists (c :: p), s. split; [reflexivity | now left].
        -- right. exists (c :: p), s. split; [reflexivity | now right].
Qed.

(** On a list none of whose elements is suppressed by what precedes it,
    the greedy pass keeps everything. *)
Lemma greedy_keeps_all (t : Q) (todo kept : list A) :
  (forall p c s, todo = p ++ c :: s -> suppressed box_of t (kept ++ p) c = false) ->
  greedy box_of t kept todo = kept ++ todo.
Proof.
  revert kept. induction todo as [|c rest IH]; intros kept H; cbn [greedy].
  - now rewrite app_nil_r.
  - pose proof (H [] c rest eq_refl) as Hc. rewrite app_nil_r in Hc. rewrite Hc.
    rewrite IH.
    + now rewrite <- app_assoc.
    + intros p c' s ->. rewrite <- app_assoc. exact (H (c :: p) c' s eq_refl).
Qed.

Lemma nms_selects (t : Q) (l : list A) :
  subseq (nms box_of score_of t l) (sort_desc score_of l) /\
  (forall p c s, nms box_of score_of t l = p ++ c :: s ->
     suppressed box_of t p c = false) /\
  (forall c, In c l -> ~ In c (nms box_of score_of t l) ->
     exists k, In k (nms box_of score_of t l) /\
               (t <= iou (box_of c) (box_of k))%Q /\
               (score_of c <= score_of k)%Q).
Proof.
  unfold nms.
  destruct (greedy_selects t (sort_desc score_of l) []) as (r & Hg & Hsub & Hind & Hmax).
  rewrite Hg. cbn [app] in *. repeat split; auto.
  intros c Hin Hout.
  assert (Hin' : In c (sort_desc score_of l))
    by (apply (Permutation_in c (Permutation_sym (sort_desc_perm l))); exact Hin).
  destruct (Hmax c Hin' Hout) as (k & Hk & Hle & [[]|(p & s & Hsplit & Hp)]).
  exists k. repeat split; auto.
  pose proof (sort_desc_sorted l) as Hs. unfold descending in Hs.
  rewrite Hsplit in Hs.
  apply in_split in Hp. destruct Hp as (p1 & p2 & ->).
  rewrite <- app_assoc in Hs. cbn [app] in Hs.
  apply StronglySorted_tail in Hs.
  inversion Hs as [|? ? _ Hall]; subst.
  rewrite Forall_forall in Hall. apply Hall.
  apply in_or_app. right. now left.
Qed.

Lemma nms_descending (t : Q) (l : list A) :
  descending score_of (nms box_of score_of t l).
Proof.
  apply (subseq_desc _ (sort_desc score_of l)).
  - exact (proj1 (nms_selects t l)).
  - apply sort_desc_sorted.
Qed.

Lemma nms_independent (t : Q) (l : list A) :
  independent box_of t (nms box_of score_of t l).
Proof.
  intros p c s H. apply suppressed_false.
  exact (proj1 (proj2 (nms_selects t l)) p c s H).
Qed.

(** Running the engine on its own output returns that output. *)
Lemma nms_fixed (t : Q) (l : list A) :
  nms box_of score_of t (nms box_of score_of t l) = nms box_of score_of t l.
Proof.
  unfold nms at 1.
  rewrite (sort_desc_fixed (nms box_of score_of t l) (nms_descending t l)).
  rewrite greedy_keeps_all; [reflexivity|].
  intros p c s H. cbn [app]. exact (proj1 (proj2 (nms_selects t l)) p c s H).
Qed.

(** Two overlapping candidates of different scores, in either order. *)
Lemma nms_pair (t : Q) (a b : A) :
  (score_of b < score_of a)%Q ->
  (t <= iou (box_of b) (box_of a))%Q ->
  nms box_of score_of t [a; b] = [a] /\ nms box_of score_of t [b; a] = [a].
Proof.
  intros Hlt Hov.
  assert (H1 : Qgtb (score_of b) (score_of a) = false)
    by (apply Qgtb_le; now apply Qlt_le_weak).
  assert (H2 : Qgtb (score_of a) (score_of b) = true) by now apply Qgtb_lt.
  assert (H3 : Qle_bool t (iou (box_of b) (box_of a)) = true)
    by now apply Qle_bool_iff.
  unfold nms, sort_desc. cbn [fold_right insert_desc].
  rewrite H1, H2. cbn [greedy suppressed existsb app orb].
  rewrite H3. split; reflexivity.
Qed.

End NMSFacts.

(** *** The engine under a relabelling of the candidates *)

Section NMSMap.

Variables A B : Type.
Variable f : A -> B.
Variable box_A : A -> Box.
Variable score_A : A -> Q.
Variable box_B : B -> Box.
Variable score_B : B -> Q.
Hypothesis box_f : forall x, box_B (f x) = box_A x.
Hypothesis score_f : forall x, score_B (f x) = score_A x.

Lemma insert_desc_map (x : A) (l : list A) :
  insert_desc score_B (f x) (map f l) = map f (insert_desc score_A x l).
Proof.
  induction l as [|y rest IH]; simpl; [reflexivity|].
  rewrite !score_f. destruct (Qgtb (score_A y) (score_A x)); simpl.
  - now rewrite IH.
  - reflexivity.
Qed.

Lemma sort_desc_map (l : list A) :
  sort_desc score_B (map f l) = map f (sort_desc score_A l).
Proof.
  induction l as [|x l IH]; simpl; [reflexivity|].
  fold (sort_desc score_B (map f l)). fold (sort_desc score_A l).
  rewrite IH. apply insert_desc_map.
Qed.

Lemma suppressed_map (t : Q) (kept : list A) (c : A) :
  suppressed box_B t (map f kept) (f c) = suppressed box_A t kept c.
Proof.
  unfold suppressed. induction kept as [|k kept IH]; simpl; [reflexivity|].
  now rewrite IH, !box_f.
Qed.

Lemma greedy_map (t : Q) (todo kept : list A) :
  greedy box_B t (map f kept) (map f todo) = map f (greedy box_A t kept todo).
Proof.
  revert kept. induction todo as [|c rest IH]; intro kept; simpl; [reflexivity|].
  rewrite suppressed_map. destruct (suppressed box_A t kept c).
  - apply IH.
  - rewrite <- IH, map_app. reflexivity.
Qed.

Lemma nms_map (t : Q) (l : list A) :
  nms box_B score_B t (map f l) = map f (nms box_A score_A t l).
Proof.
  unfold nms. rewrite sort_desc_map. apply (greedy_map t _ []).
Qed.

End NMSMap.

(** *** [NMSBoxes] on the three parallel lists *)

Lemma candidates3_indexed (cs pre : list Z) (fs : list Q) (bs : list Box) :
  List.length cs = List.length bs -> List.length fs = List.length bs ->
  candidates3 cs fs bs =
  map (fun c => mkCandidate (nth (fst c) (pre ++ cs) 0) (snd (snd c)) (fst (snd c)))
    (combine (seq (List.length pre) (List.length bs)) (combine bs fs)).
Proof.
  revert pre fs bs. induction cs as [|c cs IH]; intros pre [|f0 fs] [|b0 bs] H1 H2;
    simpl in *; try discriminate; try reflexivity.
  f_equal.
  - f_equal. rewrite app_nth2, Nat.sub_diag by lia. reflexivity.
  - rewrite (IH (pre ++ [c]) fs bs) by lia.
    rewrite length_app, Nat.add_comm. simpl.
    apply map_ext. intros [i [b s]]. simpl.
    now rewrite <- app_assoc.
Qed.

Lemma combine_indexed_nth (bs : list Box) (fs : list Q) (pre_b : list Box)
    (pre_f : list Q) (i : nat) (b : Box) (s : Q) :
  List.length pre_b = List.length pre_f ->
  In (i, (b, s)) (combine (seq (List.length pre_b) (List.length bs)) (combine bs fs)) ->
  nth i (pre_b ++ bs) (mkBox 0 0 0 0) = b /\ nth i (pre_f ++ fs) 0%Q = s.
Proof.
  revert fs pre_b pre_f. induction bs as [|b0 bs IH]; intros [|f0 fs] pre_b pre_f Hlen Hin;
    simpl in Hin; try contradiction.
  destruct Hin as [Heq|Hin].
  - injection Heq as <- <- <-. split.
    + rewrite app_nth2, Nat.sub_diag by lia. reflexivity.
    + rewrite Hlen, app_nth2, Nat.sub_diag by lia. reflexivity.
  - specialize (IH fs (pre_b ++ [b0]) (pre_f ++ [f0])).
    rewrite !length_app, <- !app_assoc in IH. simpl in IH.
    rewrite Nat.add_comm in IH. simpl in IH.
    apply IH; [lia | exact Hin].
Qed.

(** The candidates at the indices [NMSBoxes] returns are the output of the
    engine on the candidates of the three lists. *)
Lemma NMSBoxes_candidates (acc : Acc) (score_threshold t : Q) :
  aligned acc ->
  map (candidate_at acc)
    (NMSBoxes (boxes acc) (confidences acc) score_threshold t) =
  nms_candidates t (candidates acc).
Proof.
  intros [H1 H2]. unfold NMSBoxes, nms_candidates, candidates.
  rewrite (candidates3_indexed (classIds acc) [] _ _ H1 H2).
  cbn [app List.length].
  rewrite (nms_map _ _
             (fun c => mkCandidate (nth (fst c) (classIds acc) 0) (snd (snd c)) (fst (snd c)))
             (fun c => fst (snd c)) (fun c => snd (snd c)) box confidence)
    by reflexivity.
  rewrite map_map. apply map_ext_in. intros [i [b s]] Hin.
  apply (subseq_In _ _ _
           (proj1 (nms_selects _ (fun c => fst (snd c)) (fun c => snd (snd c)) t _)))
    in Hin.
  apply (Permutation_in _ (sort_desc_perm _ _ _)) in Hin.
  destruct (combine_indexed_nth (boxes acc) (confidences acc) [] [] i b s eq_refl Hin)
    as [Hb Hs].
  cbn [app] in Hb, Hs. unfold candidate_at. cbn [fst snd].
  now rewrite Hb, Hs.
Qed.

(** C6, as stated, fails on its last consequence.  Of the three candidates
    below the second and third overlap by 7/13, above the threshold 0.4,
    and the second has the higher confidence; the first suppresses the
    second, and the third, which overlaps the first by 1/3 only, is kept:
    the lower-confidence one of the pair survives and the higher-confidence
    one does not. *)
Lemma lower_confidence_outlives_suppressed_neighbour :
  (4 # 10 <= iou (mkBox 0 5 10 10) (mkBox 0 2 10 10))%Q /\
  (4 # 10 <= iou (mkBox 0 2 10 10) (mkBox 0 5 10 10))%Q /\
  (7 # 10 < 8 # 10)%Q /\
  nms_candidates (4 # 10)
    [mkCandidate 0 (9 # 10) (mkBox 0 0 10 10);
     mkCandidate 0 (8 # 10) (mkBox 0 2 10 10);
     mkCandidate 0 (7 # 10) (mkBox 0 5 10 10)]
  = [mkCandidate 0 (9 # 10) (mkBox 0 0 10 10);
     mkCandidate 0 (7 # 10) (mkBox 0 5 10 10)].
Proof.
  repeat split; try (apply Qle_bool_iff; reflexivity).
Qed.

(** C6, amended: the engine sorts the candidates by descending confidence,
    candidates of equal confidence staying in emission order, and goes
    through them in that order; its output is a selection of the sorted
    list, hence in descending confidence; a candidate is kept only if its
    IoU with every candidate kept before it is below the threshold, and a
    candidate left out has an IoU of at least the threshold with a kept
    candidate of at least its confidence.  So two candidates whose IoU
    reaches the threshold are never both in the output, and when the input
    is just two such candidates of different confidence, the output is the
    higher-confidence one, whichever comes first in the input. *)
Theorem nms_greedy_by_descending_confidence (t : Q) (l : list Candidate) :
  (Permutation (sort_desc confidence l) l /\
   descending confidence (sort_desc confidence l) /\
   forall q, filter (fun c => Qeq_bool (confidence c) q) (sort_desc confidence l) =
             filter (fun c => Qeq_bool (confidence c) q) l) /\
  nms_candidates t l = greedy box t [] (sort_desc confidence l) /\
  subseq (nms_candidates t l) (sort_desc confidence l) /\
  descending confidence (nms_candidates t l) /\
  (forall p c s, nms_candidates t l = p ++ c :: s ->
     forall k, In k p ->
       (iou (box c) (box k) < t)%Q /\ (iou (box k) (box c) < t)%Q) /\
  (forall c, In c l -> ~ In c (nms_candidates t l) ->
     exists k, In k (nms_candidates t l) /\
               (t <= iou (box c) (box k))%Q /\
               (confidence c <= confidence k)%Q) /\
  (forall a b,
     (confidence b < confidence a)%Q ->
     (t <= iou (box b) (box a))%Q ->
     nms_candidates t [a; b] = [a] /\ nms_candidates t [b; a] = [a]).
Proof.
  unfold nms_candidates.
  destruct (nms_selects Candidate box confidence t l) as (Hsub & _ & Hmax).
  repeat split.
  - apply sort_desc_perm.
  - apply sort_desc_sorted.
  - intro q. apply sort_desc_stable.
  - exact Hsub.
  - apply nms_descending.
  - exact (nms_independent Candidate box confidence t l p c s H k H0).
  - rewrite iou_sym.
    exact (nms_independent Candidate box confidence t l p c s H k H0).
  - exact Hmax.
  - exact (proj1 (nms_pair Candidate box confidence t a b H H0)).
  - exact (proj2 (nms_pair Candidate box confidence t a b H H0)).
Qed.

Lemma nms_greedy_by_descending_confidence_witness :
  (6 # 10 < 9 # 10)%Q /\
  (4 # 10 <= iou (mkBox 0 0 10 10) (mkBox 0 2 10 10))%Q /\
  nms_candidates (4 # 10)
    [mkCandidate 1 (6 # 10) (mkBox 0 0 10 10);
     mkCandidate 1 (9 # 10) (mkBox 0 2 10 10)]
  = [mkCandidate 1 (9 # 10) (mkBox 0 2 10 10)].
Proof.
  assert (H1 : (6 # 10 < 9 # 10)%Q) by reflexivity.
  assert (H2 : (4 # 10 <= iou (mkBox 0 0 10 10) (mkBox 0 2 10 10))%Q)
    by (apply Qle_bool_iff; reflexivity).
  split; [exact H1|]. split; [exact H2|].
  exact (proj2 (proj2 (proj2 (proj2 (proj2 (proj2 (proj2
           (nms_greedy_by_descending_confidence (4 # 10) []))))))
           (mkCandidate 1 (9 # 10) (mkBox 0 2 10 10))
           (mkCandidate 1 (6 # 10) (mkBox 0 0 10 10)) H1 H2)).
Defined.

(** C8: running the engine on its own output, with the same threshold,
    returns that output; every candidate of the output has an IoU below the
    threshold with each candidate before it. *)
Theorem nms_idempotent (t : Q) (l : list Candidate) :
  nms_candidates t (nms_candidates t l) = nms_candidates t l /\
  independent box t (nms_candidates t l).
Proof.
  split.
  - apply nms_fixed.
  - apply nms_independent.
Qed.

(** C9: suppression crosses classes.  Two rows of a ['DetectionOutput'] blob
    with the same box, class ids 4 and 2 and confidences 0.9 and 0.6 decode
    into two candidates of different classes; the engine keeps the first
    only, and [postprocess] draws one box, labelled with class 4. *)
Theorem suppression_crosses_classes :
  exists (hi lo : Candidate) (acc : Acc),
    classId hi <> classId lo /\
    (confidence lo < confidence hi)%Q /\
    (4 # 10 <= iou (box lo) (box hi))%Q /\
    nms_candidates (4 # 10) [lo; hi] = [hi] /\
    decode (default_self (Some ["a"; "b"; "c"; "d"; "e"]%string)) (mkFrame 480 640)
      DetectionOutput
      [[[0; 3; 6 # 10; 1 # 10; 2 # 10; 5 # 10; 6 # 10]%Q;
        [0; 5; 9 # 10; 1 # 10; 2 # 10; 5 # 10; 6 # 10]%Q]] = Ok acc /\
    candidates acc = [lo; hi] /\
    postprocess (default_self (Some ["a"; "b"; "c"; "d"; "e"]%string))
      (mkNet false "DetectionOutput") (mkFrame 480 640)
      [[[0; 3; 6 # 10; 1 # 10; 2 # 10; 5 # 10; 6 # 10]%Q;
        [0; 5; 9 # 10; 1 # 10; 2 # 10; 5 # 10; 6 # 10]%Q]] []
    = ([CallNMSBoxes (boxes acc) (confidences acc);
        DrawBox 64 96 321 289; DrawLabel (Some "e"%string) (9 # 10)],
       Ok tt).
Proof.
  exists (mkCandidate 4 (9 # 10) (mkBox 64 96 257 193)),
         (mkCandidate 2 (6 # 10) (mkBox 64 96 257 193)),
         (mkAcc [2; 4] [6 # 10; 9 # 10]%Q
            [mkBox 64 96 257 193; mkBox 64 96 257 193]).
  repeat split; try discriminate.
Qed.

(** ** What [postprocess] draws *)

Lemma NMSBoxes_in_range (bs : list Box) (fs : list Q) (st t : Q) (i : nat) :
  In i (NMSBoxes bs fs st t) -> (i < List.length bs)%nat.
Proof.
  unfold NMSBoxes. intro Hin.
  apply in_map_iff in Hin. destruct Hin as ([j c] & <- & Hin).
  apply (subseq_In _ _ _
           (proj1 (nms_selects _ (fun c => fst (snd c)) (fun c => snd (snd c)) t _)))
    in Hin.
  apply (Permutation_in _ (sort_desc_perm _ _ _)) in Hin.
  apply in_combine_l in Hin. apply in_seq in Hin. simpl. lia.
Qed.

Lemma getitem_nth {A : Type} (l : list A) (i : nat) (d : A) :
  (i < List.length l)%nat -> getitem l i = Ok (nth i l d).
Proof.
  intro H. unfold getitem. destruct (nth_error l i) eqn:E.
  - f_equal. symmetry. now apply nth_error_nth.
  - apply nth_error_None in E. lia.
Qed.

Lemma draw_kept_trace (self : PyDetectionDNN) (acc : Acc) (i : nat) (tr : list event) :
  classes self = None ->
  aligned acc ->
  (i < List.length (boxes acc))%nat ->
  draw_kept self acc i tr = (tr ++ drawn (candidate_at acc i), Ok tt).
Proof.
  intros Hcl [H1 H2] Hi. unfold draw_kept, io_bind, lift.
  rewrite (getitem_nth (boxes acc) i (mkBox 0 0 0 0) Hi).
  rewrite (getitem_nth (classIds acc) i 0) by lia.
  rewrite (getitem_nth (confidences acc) i 0%Q) by lia.
  unfold drawPred, io_bind, lift, emit. rewrite Hcl.
  rewrite <- app_assoc. reflexivity.
Qed.

Lemma draw_loop_trace (self : PyDetectionDNN) (acc : Acc) (idx : list nat)
    (tr : list event) :
  classes self = None ->
  aligned acc ->
  (forall i, In i idx -> (i < List.length (boxes acc))%nat) ->
  io_for_each (draw_kept self acc) idx tr =
    (tr ++ flat_map drawn (map (candidate_at acc) idx), Ok tt).
Proof.
  intros Hcl Hal. revert tr. induction idx as [|i idx IH]; intros tr Hrange.
  - simpl. unfold io_ret. now rewrite app_nil_r.
  - cbn [io_for_each map flat_map]. unfold io_bind.
    rewrite (draw_kept_trace self acc i tr Hcl Hal) by (apply Hrange; now left).
    rewrite IH by (intros j Hj; apply Hrange; now right).
    now rewrite <- app_assoc.
Qed.

(** After a decoding that returned, and with no class names loaded,
    [postprocess] calls [NMSBoxes] once and then draws, in the order of the
    engine's output, the box and the label of each candidate kept. *)
Lemma suppress_and_draw_trace (self : PyDetectionDNN) (acc : Acc) (tr : list event) :
  classes self = None ->
  aligned acc ->
  suppress_and_draw self acc tr =
    (tr ++ CallNMSBoxes (boxes acc) (confidences acc) ::
       flat_map drawn (nms_candidates (nmsThreshold self) (candidates acc)),
     Ok tt).
Proof.
  intros Hcl Hal.
  rewrite <- (NMSBoxes_candidates acc (confThreshold self) (nmsThreshold self) Hal).
  unfold suppress_and_draw. rewrite emit_then.
  rewrite (draw_loop_trace self acc _ _ Hcl Hal).
  - rewrite <- app_assoc. reflexivity.
  - intros i Hi. exact (NMSBoxes_in_range _ _ _ _ i Hi).
Qed.

(** One cycle of [postprocess] for a recognised network, on rows that are
    long enough and with no class names loaded: the rows above the
    confidence threshold become candidates, the engine runs once on them,
    and what it keeps is drawn in the order it was kept. *)
Lemma postprocess_draws_kept_candidates
    (self : PyDetectionDNN) (net : Net) (frame : Frame) (d : Decoder)
    (outs : list Blob) (tr : list event) :
  classes self = None ->
  selected net = Some d ->
  Forall (Forall (well_formed d)) outs ->
  exists acc,
    decode self frame d outs = Ok acc /\
    postprocess self net frame outs tr =
      (tr ++ CallNMSBoxes (boxes acc) (confidences acc) ::
         flat_map drawn
           (nms_candidates (nmsThreshold self)
              (map (row_candidate frame d)
                 (filter (above_threshold self d) (concat outs)))),
       Ok tt).
Proof.
  intros Hcl Hsel Hwf.
  pose proof (decode_total self frame d outs Hwf) as Hdec.
  destruct (decode_candidates self frame d outs _ Hdec) as [Hal Hc].
  eexists. split; [exact Hdec|].
  rewrite <- Hc.
  rewrite <- (suppress_and_draw_trace self _ tr Hcl Hal).
  unfold postprocess, decode_outs, selected in *.
  destruct (has_im_info net).
  - injection Hsel as <-. unfold io_bind, lift, io_ret. now rewrite Hdec.
  - destruct (String.eqb (lastLayerType net) "DetectionOutput").
    + injection Hsel as <-. unfold io_bind, lift, io_ret. now rewrite Hdec.
    + destruct (String.eqb (lastLayerType net) "Region"); [|discriminate].
      injection Hsel as <-. unfold io_bind, lift, io_ret. now rewrite Hdec.
Qed.

(** * Further properties of the module *)

(** ** Loading the class names *)


Lemma split_newlines_cons (s : string) :
  exists piece pieces, split_newlines s = piece :: pieces.
Proof.
  induction s as [|c rest IH]; simpl; [eauto|].
  destruct (is_newline c); [eauto|].
  destruct IH as (p & ps & ->). eauto.
Qed.

Lemma split_newlines_clean (s : string) :
  Forall (fun piece => has_newline piece = false) (split_newlines s).
Proof.
  induction s as [|c rest IH]; simpl.
  - repeat constructor.
  - destruct (is_newline c) eqn:E.
    + constructor; [reflexivity | exact IH].
    + destruct (split_newlines rest) as [|p ps].
      * repeat constructor. simpl. now rewrite E.
      * inversion IH as [|? ? Hp Hps]; subst.
        constructor; [|exact Hps]. simpl. now rewrite E, Hp.
Qed.















(** X1: whatever the class names file holds, loading it gives at least one
    name and no name holds a newline; so after construction [self.classes]
    is a non-empty list, for an empty file the list of the one name ['']. *)
Theorem load_classes_never_empty (content : string) :
  (exists name names,
     load_classes content = name :: names /\
     classes (init content) = Some (name :: names)) /\
  Forall (fun name => has_newline name = false) (load_classes content) /\
  load_classes EmptyString = [EmptyString].
Proof.
  split; [|split].
  - unfold init, load_classes. simpl.
    destruct (split_newlines_cons (rstrip_newlines content)) as (p & ps & H).
    exists p, ps. now rewrite H.
  - apply split_newlines_clean.
  - reflexivity.
Qed.




(** ** Names of the output layers *)

Lemma py_getitem_nonneg {A : Type} (l : list A) (i : Z) (d : A) :
  0 <= i < Z.of_nat (List.length l) ->
  py_getitem l i = Ok (nth (Z.to_nat i) l d).
Proof.
  intro H. unfold py_getitem.
  replace (0 <=? i) with true by (symmetry; apply Z.leb_le; lia).
  replace (i <? Z.of_nat (List.length l)) with true by (symmetry; apply Z.ltb_lt; lia).
  simpl. apply getitem_nth. lia.
Qed.

Lemma py_getitem_negative {A : Type} (l : list A) (i : Z) (d : A) :
  - Z.of_nat (List.length l) <= i < 0 ->
  py_getitem l i = Ok (nth (Z.to_nat (Z.of_nat (List.length l) + i)) l d).
Proof.
  intro H. unfold py_getitem.
  replace (0 <=? i) with false by (symmetry; apply Z.leb_gt; lia).
  replace (- Z.of_nat (List.length l) <=? i) with true by (symmetry; apply Z.leb_le; lia).
  replace (i <? 0) with true by (symmetry; apply Z.ltb_lt; lia).
  simpl. apply getitem_nth. lia.
Qed.

Lemma py_getitem_outside {A : Type} (l : list A) (i : Z) :
  i < - Z.of_nat (List.length l) \/ Z.of_nat (List.length l) <= i ->
  py_getitem l i = Raise IndexError.
Proof.
  intro H. unfold py_getitem.
  destruct H as [H|H].
  - replace (0 <=? i) with false by (symmetry; apply Z.leb_gt; lia).
    replace (- Z.of_nat (List.length l) <=? i) with false
      by (symmetry; apply Z.leb_gt; lia).
    reflexivity.
  - replace (i <? Z.of_nat (List.length l)) with false
      by (symmetry; apply Z.ltb_ge; lia).
    replace (i <? 0) with false by (symmetry; apply Z.ltb_ge; lia).
    rewrite !andb_false_r. reflexivity.
Qed.

Lemma py_getitem_In {A : Type} (l : list A) (i : Z) (x : A) :
  py_getitem l i = Ok x -> In x l.
Proof.
  unfold py_getitem, getitem. intro H.
  destruct ((0 <=? i) && (i <? Z.of_nat (List.length l))).
  - destruct (nth_error l (Z.to_nat i)) eqn:E; [|discriminate].
    injection H as <-. eapply nth_error_In; eauto.
  - destruct ((- Z.of_nat (List.length l) <=? i) && (i <? 0)); [|discriminate].
    destruct (nth_error l (Z.to_nat (Z.of_nat (List.length l) + i))) eqn:E;
      [|discriminate].
    injection H as <-. eapply nth_error_In; eauto.
Qed.

(** X4: when [getOutputsNames] returns, it returns one name for each
    unconnected output layer, and each of them is the name of a layer of
    the network. *)
Theorem getOutputsNames_are_layer_names
    (layersNames : list string) (outLayers : list Z) (names : list string) :
  getOutputsNames layersNames outLayers = Ok names ->
  List.length names = List.length outLayers /\
  Forall (fun name => In name layersNames) names.
Proof.
  unfold getOutputsNames. revert names.
  induction outLayers as [|i ids IH]; intros names H; simpl in H.
  - injection H as <-. split; [reflexivity | constructor].
  - destruct (py_getitem layersNames (i - 1)) as [name|e] eqn:E; [|discriminate].
    cbn [bind] in H.
    destruct (comprehension (fun i0 => py_getitem layersNames (i0 - 1)) ids)
      as [rest|e]; [|discriminate].
    cbn [bind] in H. injection H as <-.
    destruct (IH rest eq_refl) as [Hlen Hall]. split.
    + simpl. now rewrite Hlen.
    + constructor; [now apply (py_getitem_In _ (i - 1)) | exact Hall].
Qed.

Lemma getOutputsNames_are_layer_names_witness :
  getOutputsNames ["conv1"; "relu1"; "detection_out"]%string [3]
  = Ok ["detection_out"%string] /\
  List.length ["detection_out"%string] = List.length [3] /\
  Forall (fun name => In name ["conv1"; "relu1"; "detection_out"]%string)
    ["detection_out"%string].
Proof.
  split; [reflexivity|].
  exact (getOutputsNames_are_layer_names
           ["conv1"; "relu1"; "detection_out"]%string [3]
           ["detection_out"%string] eq_refl).
Defined.

(** X5: layer ids count from 1.  With ids between 1 and the number of
    layers, [getOutputsNames] returns the names at those positions, in the
    order of the ids. *)
Theorem getOutputsNames_one_based
    (layersNames : list string) (outLayers : list Z) :
  Forall (fun i => 1 <= i <= Z.of_nat (List.length layersNames)) outLayers ->
  getOutputsNames layersNames outLayers =
  Ok (map (fun i => nth (Z.to_nat (i - 1)) layersNames EmptyString) outLayers).
Proof.
  unfold getOutputsNames. induction 1 as [|i ids Hi _ IH]; simpl; [reflexivity|].
  rewrite (py_getitem_nonneg layersNames (i - 1) EmptyString) by lia.
  cbn [bind]. rewrite IH. reflexivity.
Qed.

Lemma getOutputsNames_one_based_witness :
  Forall (fun i => 1 <= i <= Z.of_nat (List.length ["a"; "b"; "c"]%string)) [3; 1] /\
  getOutputsNames ["a"; "b"; "c"]%string [3; 1] = Ok ["c"; "a"]%string.
Proof.
  assert (H : Forall (fun i => 1 <= i <= Z.of_nat (List.length ["a"; "b"; "c"]%string))
                [3; 1])
    by (repeat constructor; simpl; lia).
  split; [exact H|].
  exact (getOutputsNames_one_based ["a"; "b"; "c"]%string [3; 1] H).
Defined.

(** X6: an id outside the layers does not always raise.  With [n] layers,
    [getOutputsNames] raises [IndexError] exactly when some id is below
    [1 - n] or above [n]; an id from [1 - n] to 0 selects a layer counted
    from the end, id 0 the last one. *)
Theorem getOutputsNames_wraps_around
    (layersNames : list string) (outLayers : list Z) :
  let n := Z.of_nat (List.length layersNames) in
  (Forall (fun i => 1 - n <= i <= n) outLayers <->
   exists names, getOutputsNames layersNames outLayers = Ok names) /\
  (Exists (fun i => i < 1 - n \/ n < i) outLayers <->
   getOutputsNames layersNames outLayers = Raise IndexError) /\
  (forall i, 1 - n <= i <= 0 ->
     getOutputsNames layersNames [i] =
     Ok [nth (Z.to_nat (n + i - 1)) layersNames EmptyString]).
Proof.
  intro n. subst n. unfold getOutputsNames.
  assert (Hcases : forall i,
            (1 - Z.of_nat (List.length layersNames) <= i <=
               Z.of_nat (List.length layersNames) /\
             exists name, py_getitem layersNames (i - 1) = Ok name) \/
            ((i < 1 - Z.of_nat (List.length layersNames) \/
              Z.of_nat (List.length layersNames) < i) /\
             py_getitem layersNames (i - 1) = Raise IndexError)).
  { intro i.
    destruct (Z_lt_le_dec (i - 1) (- Z.of_nat (List.length layersNames))) as [H1|H1].
    - right. split; [lia|]. apply py_getitem_outside. lia.
    - destruct (Z_lt_le_dec (i - 1) 0) as [H2|H2].
      + left. split; [lia|]. eexists.
        apply (py_getitem_negative layersNames (i - 1) EmptyString). lia.
      + destruct (Z_lt_le_dec (i - 1) (Z.of_nat (List.length layersNames))) as [H3|H3].
        * left. split; [lia|]. eexists.
          apply (py_getitem_nonneg layersNames (i - 1) EmptyString). lia.
        * right. split; [lia|]. apply py_getitem_outside. lia. }
  split; [|split].
  - induction outLayers as [|i ids IH]; cbn [comprehension].
    + split; [eauto | constructor].
    + destruct (Hcases i) as [[Hi [name Hn]]|[Hi Hn]]; rewrite Hn; cbn [bind].
      * split.
        -- intro H. inversion H as [|? ? _ Hids]; subst.
           apply IH in Hids. destruct Hids as [names ->]. cbn [bind]. eauto.
        -- intros [names H]. constructor; [exact Hi|]. apply IH.
           destruct (comprehension _ ids) as [rest|e]; [eauto | discriminate].
      * split.
        -- intro H. inversion H as [|? ? Hin _]; subst. cbv beta in Hin. lia.
        -- intros [names H]. discriminate.
  - induction outLayers as [|i ids IH]; cbn [comprehension].
    + split; [intro H; inversion H | discriminate].
    + destruct (Hcases i) as [[Hi [name Hn]]|[Hi Hn]]; rewrite Hn; cbn [bind].
      * split.
        -- intro H. inversion H as [? ? Hbad|? ? Hids]; subst;
             [cbv beta in Hbad; lia|].
           apply IH in Hids. now rewrite Hids.
        -- intro H. apply Exists_cons_tl. apply IH.
           destruct (comprehension _ ids) as [rest|e]; [discriminate | exact H].
      * split; [reflexivity|]. intros _. now apply Exists_cons_hd.
  - intros i Hi. cbn [comprehension].
    destruct (Z.eq_dec (Z.of_nat (List.length layersNames)) 0) as [H0|H0].
    + exfalso. lia.
    + rewrite (py_getitem_negative layersNames (i - 1) EmptyString) by lia.
      cbn [bind].
      replace (Z.of_nat (List.length layersNames) + (i - 1))
        with (Z.of_nat (List.length layersNames) + i - 1) by lia.
      reflexivity.
Qed.

Lemma getOutputsNames_wraps_around_witness :
  1 - Z.of_nat (List.length ["conv1"; "relu1"; "detection_out"]%string) <= 0 <= 0 /\
  getOutputsNames ["conv1"; "relu1"; "detection_out"]%string [0]
  = Ok ["detection_out"%string].
Proof.
  assert (H : 1 - Z.of_nat (List.length ["conv1"; "relu1"; "detection_out"]%string)
              <= 0 <= 0) by (simpl; lia).
  split; [exact H|].
  exact (proj2 (proj2 (getOutputsNames_wraps_around
                         ["conv1"; "relu1"; "detection_out"]%string [])) 0 H).
Defined.

(** ** The decoding loops, beyond the rows they keep *)

Lemma for_each_app {A S : Type} (body : A -> S -> result S) (l1 l2 : list A) (s : S) :
  for_each body (l1 ++ l2) s = (s' <- for_each body l1 s ;; for_each body l2 s').
Proof.
  revert s. induction l1 as [|x l1 IH]; intro s; simpl; [reflexivity|].
  destruct (body x s); simpl; [apply IH | reflexivity].
Qed.

Lemma for_each_concat {A S : Type} (body : A -> S -> result S)
    (ls : list (list A)) (s : S) :
  for_each (fun l a => for_each body l a) ls s = for_each body (concat ls) s.
Proof.
  revert s. induction ls as [|l ls IH]; intro s; simpl; [reflexivity|].
  rewrite for_each_app. destruct (for_each body l s); simpl; [apply IH | reflexivity].
Qed.

Section LoopEdges.

Variable self : PyDetectionDNN.
Variable frame : Frame.

(** One iteration, on any row: it adds what [step] says when the row is
    one the loop gets through, and raises otherwise. *)
Lemma body_decodable (d : Decoder) (row : Row) (acc : Acc) :
  (decodable self d row /\
   body_of self frame d row acc = Ok (step self frame d acc row)) \/
  (~ decodable self d row /\
   body_of self frame d row acc = Raise (row_error d)).
Proof.
  destruct d.
  - destruct row as [|a [|b [|c [|d0 [|e [|f [|g rest]]]]]]];
      unfold decodable, step, above_threshold, row_confidence, raw;
      cbn [body_of im_info_body getitem nth_error nth bind List.length row_error];
      try (right; split; [intros [H _]; lia | reflexivity]);
      destruct (Qgtb c (confThreshold self)) eqn:E;
      try (left; split; [split; [lia | intro; try discriminate; lia] | reflexivity]);
      right; (split; [intros [_ H]; specialize (H eq_refl); lia | reflexivity]).
  - destruct row as [|a [|b [|c [|d0 [|e [|f [|g rest]]]]]]];
      unfold decodable, step, above_threshold, row_confidence, raw;
      cbn [body_of detection_output_body getitem nth_error nth bind List.length
             row_error];
      try (right; split; [intros [H _]; lia | reflexivity]);
      destruct (Qgtb c (confThreshold self)) eqn:E;
      try (left; split; [split; [lia | intro; try discriminate; lia] | reflexivity]);
      right; (split; [intros [_ H]; specialize (H eq_refl); lia | reflexivity]).
  - destruct (le_lt_dec 6 (List.length row)) as [H|H].
    + left. split; [exact H|]. now apply body_total.
    + right. split; [unfold decodable; lia|].
      destruct row as [|a [|b [|c [|d0 [|e [|f rest]]]]]];
        try reflexivity. simpl in H. lia.
Qed.

(** A loop over rows: it returns the rows folded with [step] when it gets
    through all of them, and raises otherwise. *)
Lemma for_each_decodable (d : Decoder) (rows : list Row) (acc : Acc) :
  (Forall (decodable self d) rows /\
   for_each (body_of self frame d) rows acc =
   Ok (fold_left (step self frame d) rows acc)) \/
  (Exists (fun row => ~ decodable self d row) rows /\
   for_each (body_of self frame d) rows acc = Raise (row_error d)).
Proof.
  revert acc. induction rows as [|row rows IH]; intro acc.
  - left. split; [constructor | reflexivity].
  - cbn [for_each fold_left].
    destruct (body_decodable d row acc) as [[Hrow Hb]|[Hrow Hb]]; rewrite Hb; cbn [bind].
    + destruct (IH (step self frame d acc row)) as [[Hrows Hf]|[Hrows Hf]].
      * left. split; [now constructor | exact Hf].
      * right. split; [now apply Exists_cons_tl | exact Hf].
    + right. split; [now apply Exists_cons_hd | reflexivity].
Qed.

Lemma decode_decodable (d : Decoder) (outs : list Blob) :
  (Forall (decodable self d) (concat outs) /\
   decode self frame d outs =
   Ok (fold_left (step self frame d) (concat outs) empty_acc)) \/
  (Exists (fun row => ~ decodable self d row) (concat outs) /\
   decode self frame d outs = Raise (row_error d)).
Proof.
  unfold decode. rewrite for_each_concat. apply for_each_decodable.
Qed.

Lemma step_acc_app (d : Decoder) (a acc : Acc) (row : Row) :
  step self frame d (acc_app a acc) row = acc_app a (step self frame d acc row).
Proof.
  unfold step. destruct (above_threshold self d row); [|reflexivity].
  unfold acc_app, append3. simpl. now rewrite !app_assoc.
Qed.

Lemma fold_step_acc_app (d : Decoder) (rows : list Row) (a acc : Acc) :
  fold_left (step self frame d) rows (acc_app a acc) =
  acc_app a (fold_left (step self frame d) rows acc).
Proof.
  revert acc. induction rows as [|row rows IH]; intro acc; simpl; [reflexivity|].
  now rewrite step_acc_app, IH.
Qed.

Lemma acc_app_empty (a : Acc) : acc_app a empty_acc = a.
Proof. destruct a. unfold acc_app. simpl. now rewrite !app_nil_r. Qed.

End LoopEdges.

Lemma filter_length_bound {A : Type} (p : A -> bool) (l : list A) :
  (List.length (filter p l) <= List.length l)%nat.
Proof.
  induction l as [|x l IH]; simpl; [lia|]. destruct (p x); simpl; lia.
Qed.

Lemma filter_implied {A : Type} (p q : A -> bool) (l : list A) :
  (forall x, p x = true -> q x = true) ->
  filter p (filter q l) = filter p l.
Proof.
  intro H. induction l as [|x l IH]; simpl; [reflexivity|].
  destruct (q x) eqn:Eq; simpl.
  - now rewrite IH.
  - destruct (p x) eqn:Ep; [|exact IH].
    apply H in Ep. congruence.
Qed.

Lemma Forall_Exists_not {A : Type} (P : A -> Prop) (l : list A) :
  Forall P l -> Exists (fun x => ~ P x) l -> False.
Proof.
  intros Hall Hex. apply Exists_exists in Hex. destruct Hex as (x & Hin & Hx).
  rewrite Forall_forall in Hall. exact (Hx (Hall x Hin)).
Qed.

(** X7: the three lists a decoding returns have the same length, one entry
    for each row above the confidence threshold, hence never more entries
    than rows. *)
Theorem decode_lists_stay_aligned
    (self : PyDetectionDNN) (frame : Frame) (d : Decoder)
    (outs : list Blob) (acc : Acc) :
  decode self frame d outs = Ok acc ->
  List.length (classIds acc) = List.length (boxes acc) /\
  List.length (confidences acc) = List.length (boxes acc) /\
  List.length (boxes acc) =
    List.length (filter (above_threshold self d) (concat outs)) /\
  (List.length (boxes acc) <= List.length (concat outs))%nat.
Proof.
  intro H. destruct (decode_candidates self frame d outs acc H) as [Hal Hc].
  destruct Hal as [H1 H2].
  destruct (aligned_fields acc (conj H1 H2)) as (_ & _ & Hb).
  assert (Hlen : List.length (boxes acc) =
                 List.length (filter (above_threshold self d) (concat outs)))
    by (rewrite Hb, Hc, !length_map; reflexivity).
  repeat split; try assumption.
  rewrite Hlen. apply filter_length_bound.
Qed.

Lemma decode_lists_stay_aligned_witness :
  decode (default_self None) (mkFrame 480 640) ImInfo
    [[[0; 3; 1 # 2; 10; 10; 50; 50]%Q]; [[0; 3; 6 # 10; 10; 10; 50; 50]%Q]]
  = Ok (mkAcc [2] [6 # 10]%Q [mkBox 10 10 41 41]) /\
  List.length (classIds (mkAcc [2] [6 # 10]%Q [mkBox 10 10 41 41])) =
  List.length (boxes (mkAcc [2] [6 # 10]%Q [mkBox 10 10 41 41])).
Proof.
  split; [reflexivity|].
  exact (proj1 (decode_lists_stay_aligned (default_self None) (mkFrame 480 640)
                  ImInfo
                  [[[0; 3; 1 # 2; 10; 10; 50; 50]%Q];
                   [[0; 3; 6 # 10; 10; 10; 50; 50]%Q]]
                  (mkAcc [2] [6 # 10]%Q [mkBox 10 10 41 41]) eq_refl)).
Defined.

(** X8: how the rows are split into blobs does not matter, and decoding
    composes: decoding blobs is decoding the one blob of all their rows;
    when the first blobs decode, decoding them followed by further blobs
    gives the lists of the first followed by the lists of the others, or the
    exception of the others; when the first blobs raise, so does the whole. *)
Theorem decode_composes
    (self : PyDetectionDNN) (frame : Frame) (d : Decoder)
    (outs1 outs2 : list Blob) :
  decode self frame d outs1 = decode self frame d [concat outs1] /\
  (forall a1,
     decode self frame d outs1 = Ok a1 ->
     decode self frame d (outs1 ++ outs2) =
     match decode self frame d outs2 with
     | Ok a2 => Ok (acc_app a1 a2)
     | Raise e => Raise e
     end) /\
  (forall e,
     decode self frame d outs1 = Raise e ->
     decode self frame d (outs1 ++ outs2) = Raise e).
Proof.
  unfold decode. rewrite !for_each_concat. split; [|split].
  - simpl. now rewrite app_nil_r.
  - intros a1 H1. rewrite concat_app, for_each_app, H1. cbn [bind].
    destruct (for_each_decodable self frame d (concat outs2) a1) as [[F1 E1]|[X1 E1]];
      destruct (for_each_decodable self frame d (concat outs2) empty_acc)
        as [[F2 E2]|[X2 E2]];
      rewrite E1, E2;
      try (exfalso; eapply Forall_Exists_not; eassumption).
    + f_equal. rewrite <- (acc_app_empty a1) at 1. apply fold_step_acc_app.
    + reflexivity.
  - intros e H1. rewrite concat_app, for_each_app, H1. reflexivity.
Qed.

Lemma decode_composes_witness :
  decode (default_self None) (mkFrame 480 640) ImInfo
    [[[0; 3; 6 # 10; 10; 10; 50; 50]%Q]]
  = Ok (mkAcc [2] [6 # 10]%Q [mkBox 10 10 41 41]) /\
  decode (default_self None) (mkFrame 480 640) ImInfo
    ([[[0; 3; 6 # 10; 10; 10; 50; 50]%Q]] ++ [[[0; 1; 7 # 10; 0; 0; 9; 9]%Q]])
  = Ok (mkAcc [2; 0] [6 # 10; 7 # 10]%Q [mkBox 10 10 41 41; mkBox 0 0 10 10]).
Proof.
  split; [reflexivity|].
  exact (proj1 (proj2 (decode_composes (default_self None) (mkFrame 480 640) ImInfo
                         [[[0; 3; 6 # 10; 10; 10; 50; 50]%Q]]
                         [[[0; 1; 7 # 10; 0; 0; 9; 9]%Q]]))
           (mkAcc [2] [6 # 10]%Q [mkBox 10 10 41 41]) eq_refl).
Defined.





Lemma Forall2_map_filter_In {A B : Type} (f : A -> B) (p : A -> bool)
    (R : A -> B -> Prop) (l : list A) :
  (forall x, In x l -> p x = true -> R x (f x)) ->
  Forall2 R (filter p l) (map f (filter p l)).
Proof.
  intro H. induction l as [|x l IH]; simpl; [constructor|].
  assert (IH' : Forall2 R (filter p l) (map f (filter p l)))
    by (apply IH; intros y Hy; apply H; now right).
  destruct (p x) eqn:E; simpl; [|exact IH'].
  constructor; [apply H; [now left | exact E] | exact IH'].
Qed.

Lemma raw_skipn (n : nat) (row : Row) (j : nat) :
  raw (skipn n row) j = raw row (n + j).
Proof.
  unfold raw. revert row. induction n as [|n IH]; intro row; [reflexivity|].
  destruct row as [|x row]; simpl.
  - now destruct j.
  - apply IH.
Qed.

(** The class and confidence of a ['Region'] row of at least six elements. *)
Lemma row_argmax_first_maximum (row : Row) :
  (6 <= List.length row)%nat ->
  (row_argmax row < List.length row - 5)%nat /\
  (forall j, (5 <= j < List.length row)%nat ->
     (raw row j <= raw row (5 + row_argmax row))%Q) /\
  (forall j, (5 <= j < 5 + row_argmax row)%nat ->
     (raw row j < raw row (5 + row_argmax row))%Q).
Proof.
  intro Hlen.
  assert (Harg : np_argmax (skipn 5 row) = Ok (row_argmax row)).
  { unfold np_argmax, row_argmax.
    destruct (skipn 5 row) as [|x rest] eqn:E; [|reflexivity].
    assert (Hl : List.length (skipn 5 row) = 0%nat) by now rewrite E.
    rewrite length_skipn in Hl. lia. }
  destruct (np_argmax_first_maximum _ _ Harg) as (Hb & Hmax & Hfirst).
  rewrite length_skipn in Hb, Hmax. split; [exact Hb|]. split.
  - intros j Hj. specialize (Hmax (j - 5)%nat). rewrite !raw_skipn in Hmax.
    replace (5 + (j - 5))%nat with j in Hmax by lia. apply Hmax. lia.
  - intros j Hj. specialize (Hfirst (j - 5)%nat). rewrite !raw_skipn in Hfirst.
    replace (5 + (j - 5))%nat with j in Hfirst by lia. apply Hfirst. lia.
Qed.

(** X11: each candidate of the ['Region'] loop comes from a row above the
    threshold; its class id is the position, counted from element 5 of the
    row, of the first largest element from there on, so it lies between 0
    and the row length minus 6, and its confidence is that largest element:
    no element from position 5 on is greater, and those before the class
    are smaller. *)
Theorem region_class_is_first_maximum
    (self : PyDetectionDNN) (frame : Frame) (outs : list Blob) (acc : Acc) :
  decode self frame Region outs = Ok acc ->
  Forall2
    (fun (row : Row) c =>
       0 <= classId c < Z.of_nat (List.length row) - 5 /\
       confidence c = raw row (5 + Z.to_nat (classId c)) /\
       (confThreshold self < confidence c)%Q /\
       (forall j, (5 <= j < List.length row)%nat -> (raw row j <= confidence c)%Q) /\
       (forall j, (5 <= j < 5 + Z.to_nat (classId c))%nat ->
          (raw row j < confidence c)%Q))
    (filter (above_threshold self Region) (concat outs)) (candidates acc).
Proof.
  intro H. destruct (decode_candidates self frame Region outs acc H) as [_ Hc].
  rewrite Hc.
  destruct (decode_decodable self frame Region outs) as [[F _]|[_ E]];
    [|rewrite E in H; discriminate].
  apply Forall2_map_filter_In. intros row Hin Hab.
  rewrite Forall_forall in F. specialize (F row Hin). simpl in F.
  destruct (row_argmax_first_maximum row F) as (Hb & Hmax & Hfirst).
  unfold above_threshold in Hab. apply Qgtb_lt in Hab.
  unfold row_candidate. cbn [classId confidence row_classId row_confidence] in *.
  rewrite Nat2Z.id. rewrite raw_skipn in *.
  repeat split; try assumption; lia.
Qed.

Lemma region_class_is_first_maximum_witness :
  decode (default_self None) (mkFrame 480 640) Region
    [[[1 # 2; 1 # 2; 1 # 5; 1 # 5; 0; 8 # 10; 1 # 10; 8 # 10]%Q]]
  = Ok (mkAcc [0] [8 # 10]%Q [mkBox 256 192 128 96]) /\
  Forall2
    (fun (row : Row) c =>
       0 <= classId c < Z.of_nat (List.length row) - 5 /\
       confidence c = raw row (5 + Z.to_nat (classId c)) /\
       (1 # 2 < confidence c)%Q /\
       (forall j, (5 <= j < List.length row)%nat -> (raw row j <= confidence c)%Q) /\
       (forall j, (5 <= j < 5 + Z.to_nat (classId c))%nat ->
          (raw row j < confidence c)%Q))
    (filter (above_threshold (default_self None) Region)
       (concat [[[1 # 2; 1 # 2; 1 # 5; 1 # 5; 0; 8 # 10; 1 # 10; 8 # 10]%Q]]))
    (candidates (mkAcc [0] [8 # 10]%Q [mkBox 256 192 128 96])).
Proof.
  split; [reflexivity|].
  exact (region_class_is_first_maximum (default_self None) (mkFrame 480 640)
           [[[1 # 2; 1 # 2; 1 # 5; 1 # 5; 0; 8 # 10; 1 # 10; 8 # 10]%Q]]
           (mkAcc [0] [8 # 10]%Q [mkBox 256 192 128 96]) eq_refl).
Defined.

(** X12: the confidence threshold is "higher for stricter".  If decoding
    returns with one threshold, it returns with any higher threshold, and
    its candidates are then those of the first decoding whose confidence
    exceeds the higher threshold, in the same order. *)
Theorem higher_threshold_keeps_fewer
    (self1 self2 : PyDetectionDNN) (frame : Frame) (d : Decoder)
    (outs : list Blob) (acc1 : Acc) :
  (confThreshold self1 <= confThreshold self2)%Q ->
  decode self1 frame d outs = Ok acc1 ->
  exists acc2,
    decode self2 frame d outs = Ok acc2 /\
    candidates acc2 =
    filter (fun c => Qgtb (confidence c) (confThreshold self2)) (candidates acc1).
Proof.
  intros Hle H1.
  assert (Himp : forall row, above_threshold self2 d row = true ->
                             above_threshold self1 d row = true).
  { intros row H. unfold above_threshold in *. apply Qgtb_lt in H. apply Qgtb_lt.
    now apply Qle_lt_trans with (confThreshold self2). }
  destruct (decode_candidates self1 frame d outs acc1 H1) as [_ Hc1].
  destruct (decode_decodable self1 frame d outs) as [[F1 _]|[_ E]];
    [|rewrite E in H1; discriminate].
  destruct (decode_decodable self2 frame d outs) as [[F2 E2]|[X2 _]].
  - eexists. split; [exact E2|].
    rewrite (proj2 (decode_candidates self2 frame d outs _ E2)), Hc1.
    rewrite <- (map_filter_comm (row_candidate frame d)
                  (fun c => Qgtb (confidence c) (confThreshold self2))).
    f_equal. symmetry.
    apply (filter_implied (above_threshold self2 d) (above_threshold self1 d)), Himp.
  - exfalso. apply Exists_exists in X2. destruct X2 as (row & Hin & Hbad).
    rewrite Forall_forall in F1. specialize (F1 row Hin). apply Hbad.
    destruct d; simpl in *; try exact F1;
      (destruct F1 as [H3 H7]; split; [exact H3 | intro Hab; apply H7, Himp, Hab]).
Qed.

Lemma higher_threshold_keeps_fewer_witness :
  (confThreshold (default_self None) <= confThreshold (mkSelf (7 # 10) (4 # 10) 160 120 None))%Q /\
  decode (default_self None) (mkFrame 480 640) ImInfo
    [[[0; 3; 6 # 10; 10; 10; 50; 50]%Q; [0; 1; 8 # 10; 0; 0; 9; 9]%Q]]
  = Ok (mkAcc [2; 0] [6 # 10; 8 # 10]%Q [mkBox 10 10 41 41; mkBox 0 0 10 10]) /\
  exists acc2,
    decode (mkSelf (7 # 10) (4 # 10) 160 120 None) (mkFrame 480 640) ImInfo
      [[[0; 3; 6 # 10; 10; 10; 50; 50]%Q; [0; 1; 8 # 10; 0; 0; 9; 9]%Q]] = Ok acc2 /\
    candidates acc2 =
    filter (fun c => Qgtb (confidence c) (7 # 10))
      (candidates (mkAcc [2; 0] [6 # 10; 8 # 10]%Q [mkBox 10 10 41 41; mkBox 0 0 10 10])).
Proof.
  assert (H : (confThreshold (default_self None) <=
               confThreshold (mkSelf (7 # 10) (4 # 10) 160 120 None))%Q)
    by (simpl; unfold Qle; simpl; lia).
  split; [exact H|]. split; [reflexivity|].
  exact (higher_threshold_keeps_fewer (default_self None)
           (mkSelf (7 # 10) (4 # 10) 160 120 None) (mkFrame 480 640) ImInfo
           [[[0; 3; 6 # 10; 10; 10; 50; 50]%Q; [0; 1; 8 # 10; 0; 0; 9; 9]%Q]]
           (mkAcc [2; 0] [6 # 10; 8 # 10]%Q [mkBox 10 10 41 41; mkBox 0 0 10 10])
           H eq_refl).
Defined.

(** ** Truncation and the geometry of the boxes *)

Lemma py_int_floor (q : Q) : (0 <= q)%Q -> py_int q = Qfloor q.
Proof.
  destruct q as [n d]. unfold Qle, py_int, Qfloor. simpl. intro H.
  apply Z.quot_div_nonneg; lia.
Qed.

Lemma py_int_ceiling (q : Q) : (q <= 0)%Q -> py_int q = Qceiling q.
Proof.
  destruct q as [n d]. unfold Qle, py_int, Qceiling, Qfloor, Qopp. simpl. intro H.
  rewrite <- (Z.quot_div_nonneg (- n) (Z.pos d)) by lia.
  rewrite Z.quot_opp_l by lia. lia.
Qed.

Lemma py_int_Z (z : Z) : py_int (inject_Z z) = z.
Proof. unfold py_int, inject_Z. simpl. apply Z.quot_1_r. Qed.

(** [int()] never reverses an order. *)
Lemma py_int_mono (a b : Q) : (a <= b)%Q -> py_int a <= py_int b.
Proof.
  intro Hab.
  destruct (Qlt_le_dec a 0) as [Ha|Ha]; destruct (Qlt_le_dec b 0) as [Hb|Hb].
  - rewrite !py_int_ceiling by now apply Qlt_le_weak.
    now apply Qceiling_resp_le.
  - rewrite (py_int_ceiling a) by now apply Qlt_le_weak.
    rewrite (py_int_floor b) by exact Hb.
    assert (H1 : Qceiling a - 1 < 0).
    { rewrite Zlt_Qlt. apply Qlt_trans with a; [apply Qceiling_lt | exact Ha]. }
    assert (H2 : 0 <= Qfloor b).
    { change 0 with (Qfloor (inject_Z 0)) at 1. rewrite Qfloor_Z.
      rewrite <- (Qfloor_Z 0). now apply Qfloor_resp_le. }
    lia.
  - exfalso. apply (Qlt_irrefl 0).
    apply Qle_lt_trans with a; [exact Ha|].
    now apply Qle_lt_trans with b.
  - rewrite !py_int_floor by (try assumption; now apply Qle_trans with a).
    now apply Qfloor_resp_le.
Qed.

Lemma inject_Z_nonneg (z : Z) : 0 <= z -> (0 <= inject_Z z)%Q.
Proof. intro H. change 0%Q with (inject_Z 0). now rewrite <- Zle_Qle. Qed.

(** Scaling a fraction of the frame: order is kept, and a fraction between
    0 and 1 lands between 0 and the frame size. *)
Lemma scaled_mono (x y : Q) (size : Z) :
  0 <= size -> (x <= y)%Q ->
  py_int (x * inject_Z size) <= py_int (y * inject_Z size).
Proof.
  intros Hs Hxy. apply py_int_mono.
  apply Qmult_le_compat_r; [exact Hxy | now apply inject_Z_nonneg].
Qed.

Lemma scaled_within (x : Q) (size : Z) :
  0 <= size -> (0 <= x)%Q -> (x <= 1)%Q ->
  0 <= py_int (x * inject_Z size) <= size.
Proof.
  intros Hs H0 H1. split.
  - rewrite <- (py_int_Z 0) at 1.
    assert (E : (inject_Z 0 == 0 * inject_Z size)%Q) by (symmetry; apply Qmult_0_l).
    apply py_int_mono. rewrite E.
    apply Qmult_le_compat_r; [exact H0 | now apply inject_Z_nonneg].
  - rewrite <- (py_int_Z size) at 2.
    apply py_int_mono.
    apply Qle_trans with (1 * inject_Z size)%Q.
    + apply Qmult_le_compat_r; [exact H1 | now apply inject_Z_nonneg].
    + rewrite Qmult_1_l. apply Qle_refl.
Qed.



Lemma decode_boxes (self : PyDetectionDNN) (frame : Frame) (d : Decoder)
    (outs : list Blob) (acc : Acc) :
  decode self frame d outs = Ok acc ->
  boxes acc = map (row_box frame d) (filter (above_threshold self d) (concat outs)).
Proof.
  intro H. destruct (decode_candidates self frame d outs acc H) as [Hal Hc].
  destruct (aligned_fields acc Hal) as (_ & _ & Hb).
  rewrite Hb, Hc, map_map. reflexivity.
Qed.

(** X13: in the Faster-RCNN and ['DetectionOutput'] loops, a row whose left
    edge is not beyond its right edge and whose top edge is not beyond its
    bottom edge gives a box at least one pixel wide and high, on a frame of
    non-negative size: truncation and scaling keep the order of the edges. *)
Theorem ordered_edges_give_positive_boxes
    (self : PyDetectionDNN) (frame : Frame) (d : Decoder)
    (outs : list Blob) (acc : Acc) :
  d <> Region ->
  0 <= frameWidth frame ->
  0 <= frameHeight frame ->
  Forall (fun row : Row =>
            Qgtb (raw row 2) (confThreshold self) = true ->
            (raw row 3 <= raw row 5)%Q /\ (raw row 4 <= raw row 6)%Q)
    (concat outs) ->
  decode self frame d outs = Ok acc ->
  Forall (fun b => 1 <= width b /\ 1 <= height b) (boxes acc).
Proof.
  intros Hd HW HH Hrows H.
  rewrite (decode_boxes self frame d outs acc H).
  apply Forall_forall. intros b Hin.
  apply in_map_iff in Hin. destruct Hin as (row & <- & Hrow).
  apply filter_In in Hrow. destruct Hrow as [Hin Hab].
  rewrite Forall_forall in Hrows. specialize (Hrows row Hin).
  destruct d; try congruence; unfold above_threshold in Hab; simpl in Hab;
    destruct (Hrows Hab) as [Hx Hy]; cbn [row_box width height].
  - pose proof (py_int_mono _ _ Hx). pose proof (py_int_mono _ _ Hy). lia.
  - pose proof (scaled_mono _ _ _ HW Hx). pose proof (scaled_mono _ _ _ HH Hy). lia.
Qed.

Lemma ordered_edges_give_positive_boxes_witness :
  DetectionOutput <> Region /\
  0 <= frameWidth (mkFrame 480 640) /\
  0 <= frameHeight (mkFrame 480 640) /\
  decode (default_self None) (mkFrame 480 640) DetectionOutput
    [[[0; 5; 9 # 10; 1 # 10; 2 # 10; 1 # 10; 2 # 10]%Q]]
  = Ok (mkAcc [4] [9 # 10]%Q [mkBox 64 96 1 1]) /\
  Forall (fun b => 1 <= width b /\ 1 <= height b)
    (boxes (mkAcc [4] [9 # 10]%Q [mkBox 64 96 1 1])).
Proof.
  assert (Hd : DetectionOutput <> Region) by discriminate.
  assert (HW : 0 <= frameWidth (mkFrame 480 640)) by (simpl; lia).
  assert (HH : 0 <= frameHeight (mkFrame 480 640)) by (simpl; lia).
  split; [exact Hd|]. split; [exact HW|]. split; [exact HH|].
  split; [reflexivity|].
  refine (ordered_edges_give_positive_boxes (default_self None) (mkFrame 480 640)
            DetectionOutput
            [[[0; 5; 9 # 10; 1 # 10; 2 # 10; 1 # 10; 2 # 10]%Q]]
            (mkAcc [4] [9 # 10]%Q [mkBox 64 96 1 1]) Hd HW HH _ eq_refl).
  repeat constructor; unfold Qle; simpl; lia.
Defined.

(** X14: in the ['DetectionOutput'] loop, a row whose four coordinates are
    fractions between 0 and 1 gives a box whose corner lies in the frame,
    [0 <= left <= frameWidth] and [0 <= top <= frameHeight], and whose far
    edges [left + width] and [top + height], those the rectangle is drawn
    to, exceed the frame size by one pixel at most. *)
Theorem detection_output_boxes_within_frame
    (self : PyDetectionDNN) (frame : Frame) (outs : list Blob) (acc : Acc) :
  0 <= frameWidth frame ->
  0 <= frameHeight frame ->
  Forall (fun row : Row =>
            Qgtb (raw row 2) (confThreshold self) = true ->
            Forall (fun x => (0 <= x)%Q /\ (x <= 1)%Q)
              [raw row 3; raw row 4; raw row 5; raw row 6])
    (concat outs) ->
  decode self frame DetectionOutput outs = Ok acc ->
  Forall (fun b =>
            0 <= left b <= frameWidth frame /\
            0 <= top b <= frameHeight frame /\
            left b + width b <= frameWidth frame + 1 /\
            top b + height b <= frameHeight frame + 1)
    (boxes acc).
Proof.
  intros HW HH Hrows H.
  rewrite (decode_boxes self frame DetectionOutput outs acc H).
  apply Forall_forall. intros b Hin.
  apply in_map_iff in Hin. destruct Hin as (row & <- & Hrow).
  apply filter_In in Hrow. destruct Hrow as [Hin Hab].
  rewrite Forall_forall in Hrows. specialize (Hrows row Hin Hab).
  inversion Hrows as [|? ? [H3a H3b] Hr1]; subst.
  inversion Hr1 as [|? ? [H4a H4b] Hr2]; subst.
  inversion Hr2 as [|? ? [H5a H5b] Hr3]; subst.
  inversion Hr3 as [|? ? [H6a H6b] _]; subst.
  pose proof (scaled_within _ _ HW H3a H3b).
  pose proof (scaled_within _ _ HH H4a H4b).
  pose proof (scaled_within _ _ HW H5a H5b).
  pose proof (scaled_within _ _ HH H6a H6b).
  cbn [row_box left top width height]. lia.
Qed.

Lemma detection_output_boxes_within_frame_witness :
  0 <= frameWidth (mkFrame 480 640) /\
  0 <= frameHeight (mkFrame 480 640) /\
  decode (default_self None) (mkFrame 480 640) DetectionOutput
    [[[0; 5; 9 # 10; 1 # 10; 2 # 10; 1; 1]%Q]]
  = Ok (mkAcc [4] [9 # 10]%Q [mkBox 64 96 577 385]) /\
  Forall (fun b =>
            0 <= left b <= 640 /\ 0 <= top b <= 480 /\
            left b + width b <= 640 + 1 /\ top b + height b <= 480 + 1)
    (boxes (mkAcc [4] [9 # 10]%Q [mkBox 64 96 577 385])).
Proof.
  assert (HW : 0 <= frameWidth (mkFrame 480 640)) by (simpl; lia).
  assert (HH : 0 <= frameHeight (mkFrame 480 640)) by (simpl; lia).
  split; [exact HW|]. split; [exact HH|]. split; [reflexivity|].
  refine (detection_output_boxes_within_frame (default_self None) (mkFrame 480 640)
            [[[0; 5; 9 # 10; 1 # 10; 2 # 10; 1; 1]%Q]]
            (mkAcc [4] [9 # 10]%Q [mkBox 64 96 577 385]) HW HH _ eq_refl).
  repeat constructor; unfold Qle; simpl; lia.
Defined.



(** ** Labels *)

Lemma nth_last {A : Type} (l : list A) (d : A) :
  nth (List.length l - 1) l d = last l d.
Proof.
  induction l as [|x l IH]; [reflexivity|].
  destruct l as [|y l]; [reflexivity|].
  simpl in *. rewrite <- IH. now rewrite Nat.sub_0_r.
Qed.

(** X16: the label [drawPred] looks up, with [n >= 1] class names loaded.
    A class id from 0 to [n - 1] is labelled with its name.  A negative
    class id down to [-n] passes the assertion [classId < len(self.classes)]
    and is labelled with a name counted from the end: -1, the class of a raw
    background id 0 in the box-style loops, gets the last name.  A class id
    of [n] or more raises [AssertionError], one below [-n] raises
    [IndexError]; in both cases the box has been drawn and the label has
    not. *)
Theorem drawPred_label_lookup
    (self : PyDetectionDNN) (names : list string) (classId : Z) (conf : Q)
    (l t r b : Z) (tr : list event) :
  classes self = Some names ->
  names <> [] ->
  let n := Z.of_nat (List.length names) in
  (0 <= classId < n ->
   drawPred self classId conf l t r b tr =
   (tr ++ [DrawBox l t r b;
           DrawLabel (Some (nth (Z.to_nat classId) names EmptyString)) conf],
    Ok tt)) /\
  (- n <= classId < 0 ->
   drawPred self classId conf l t r b tr =
   (tr ++ [DrawBox l t r b;
           DrawLabel (Some (nth (Z.to_nat (n + classId)) names EmptyString)) conf],
    Ok tt)) /\
  (classId = -1 ->
   drawPred self classId conf l t r b tr =
   (tr ++ [DrawBox l t r b; DrawLabel (Some (last names EmptyString)) conf],
    Ok tt)) /\
  (n <= classId ->
   drawPred self classId conf l t r b tr =
   (tr ++ [DrawBox l t r b], Raise AssertionError)) /\
  (classId < - n ->
   drawPred self classId conf l t r b tr =
   (tr ++ [DrawBox l t r b], Raise IndexError)).
Proof.
  intros Hcl Hne n.
  destruct names as [|c cs]; [congruence|].
  assert (Hn : 0 < n) by (subst n; simpl; lia).
  assert (Hwrap : - n <= classId < 0 ->
            drawPred self classId conf l t r b tr =
            (tr ++ [DrawBox l t r b;
                    DrawLabel (Some (nth (Z.to_nat (n + classId)) (c :: cs) EmptyString))
                      conf], Ok tt)).
  { intro H. unfold drawPred. rewrite Hcl, emit_then. unfold io_bind, lift, emit.
    replace (classId <? Z.of_nat (List.length (c :: cs))) with true
      by (symmetry; apply Z.ltb_lt; subst n; lia).
    rewrite (py_getitem_negative (c :: cs) classId EmptyString) by (subst n; lia).
    cbn [bind]. rewrite <- app_assoc. reflexivity. }
  repeat split.
  - intro H. unfold drawPred. rewrite Hcl, emit_then. unfold io_bind, lift, emit.
    replace (classId <? Z.of_nat (List.length (c :: cs))) with true
      by (symmetry; apply Z.ltb_lt; subst n; lia).
    rewrite (py_getitem_nonneg (c :: cs) classId EmptyString) by (subst n; lia).
    cbn [bind]. rewrite <- app_assoc. reflexivity.
  - exact Hwrap.
  - intros ->. rewrite Hwrap by lia. repeat f_equal.
    rewrite <- (nth_last (c :: cs) EmptyString). f_equal. subst n. lia.
  - intro H. unfold drawPred. rewrite Hcl, emit_then. unfold io_bind, lift, emit.
    replace (classId <? Z.of_nat (List.length (c :: cs))) with false
      by (symmetry; apply Z.ltb_ge; subst n; lia).
    reflexivity.
  - intro H. unfold drawPred. rewrite Hcl, emit_then. unfold io_bind, lift, emit.
    replace (classId <? Z.of_nat (List.length (c :: cs))) with true
      by (symmetry; apply Z.ltb_lt; subst n; lia).
    rewrite (py_getitem_outside (c :: cs) classId) by (subst n; lia).
    reflexivity.
Qed.

Lemma drawPred_label_lookup_witness :
  classes (init "person") = Some ["person"%string] /\
  ["person"%string] <> [] /\
  drawPred (init "person") (-1) (9 # 10) 1 2 3 4 [] =
  ([DrawBox 1 2 3 4; DrawLabel (Some "person"%string) (9 # 10)], Ok tt) /\
  drawPred (init "person") 1 (9 # 10) 1 2 3 4 [] =
  ([DrawBox 1 2 3 4], Raise AssertionError).
Proof.
  assert (H1 : classes (init "person") = Some ["person"%string]) by reflexivity.
  assert (H2 : ["person"%string] <> []) by discriminate.
  split; [exact H1|]. split; [exact H2|].
  pose proof (drawPred_label_lookup (init "person") ["person"%string]) as H.
  split.
  - exact (proj1 (proj2 (proj2 (H (-1) (9 # 10) 1 2 3 4 [] H1 H2))) eq_refl).
  - refine (proj1 (proj2 (proj2 (proj2 (H 1 (9 # 10) 1 2 3 4 [] H1 H2)))) _).
    simpl. lia.
Defined.

(** ** The trace of a cycle *)

Lemma extends_ret {A : Type} (P : event -> Prop) (a : A) :
  extends_with P (io_ret a).
Proof. intro tr. exists []. split; [simpl; now rewrite app_nil_r | constructor]. Qed.

Lemma extends_lift {A : Type} (P : event -> Prop) (r : result A) :
  extends_with P (lift r).
Proof. intro tr. exists []. split; [simpl; now rewrite app_nil_r | constructor]. Qed.

Lemma extends_emit (P : event -> Prop) (e : event) :
  P e -> extends_with P (emit e).
Proof. intros He tr. exists [e]. split; [reflexivity | now constructor]. Qed.

Lemma extends_bind {A B : Type} (P : event -> Prop) (m : io A) (k : A -> io B) :
  extends_with P m -> (forall a, extends_with P (k a)) ->
  extends_with P (io_bind m k).
Proof.
  intros Hm Hk tr. unfold io_bind.
  destruct (Hm tr) as (added1 & E1 & F1).
  destruct (m tr) as [tr1 [a|e]]; simpl in E1; subst tr1.
  - destruct (Hk a (tr ++ added1)) as (added2 & E2 & F2).
    exists (added1 ++ added2). rewrite E2, app_assoc.
    split; [reflexivity | now apply Forall_app].
  - exists added1. split; [reflexivity | exact F1].
Qed.

Lemma extends_for_each {A : Type} (P : event -> Prop) (body : A -> io unit)
    (l : list A) :
  (forall x, extends_with P (body x)) -> extends_with P (io_for_each body l).
Proof.
  intro H. induction l as [|x l IH]; simpl.
  - apply extends_ret.
  - apply extends_bind; [apply H | intros _; exact IH].
Qed.

Lemma drawPred_extends (self : PyDetectionDNN) (classId : Z) (conf : Q)
    (l t r b : Z) :
  extends_with postprocess_event (drawPred self classId conf l t r b).
Proof.
  unfold drawPred. apply extends_bind; [now apply extends_emit|]. intros _.
  apply extends_bind; [apply extends_lift|]. intro name.
  now apply extends_emit.
Qed.

(** [postprocess] adds nothing to the trace but an error message, the call
    of [NMSBoxes], boxes and labels. *)
Lemma postprocess_extends (self : PyDetectionDNN) (net : Net) (frame : Frame)
    (outs : list Blob) :
  extends_with postprocess_event (postprocess self net frame outs).
Proof.
  unfold postprocess. apply extends_bind.
  - unfold decode_outs.
    destruct (has_im_info net);
      [apply extends_bind; [apply extends_lift | intro; apply extends_ret]|].
    destruct (String.eqb (lastLayerType net) "DetectionOutput");
      [apply extends_bind; [apply extends_lift | intro; apply extends_ret]|].
    destruct (String.eqb (lastLayerType net) "Region");
      [apply extends_bind; [apply extends_lift | intro; apply extends_ret]|].
    apply extends_bind; [now apply extends_emit | intro; apply extends_ret].
  - intros [acc|]; [|apply extends_ret].
    unfold suppress_and_draw. apply extends_bind; [now apply extends_emit|].
    intros _. apply extends_for_each. intro i. unfold draw_kept.
    apply extends_bind; [apply extends_lift|]. intro box0.
    apply extends_bind; [apply extends_lift|]. intro c.
    apply extends_bind; [apply extends_lift|]. intro f.
    apply drawPred_extends.
Qed.

(** The cycle of a network with an [im_info] input stops at the unbound
    name. *)
Lemma process_im_info_run (self : PyDetectionDNN) (net : Net) (inframe : Frame)
    (outs : list Blob) (tr : list event) :
  has_im_info net = true ->
  process self net inframe outs tr =
    (tr ++ [GetCvBGR; TimerStart; BlobFromImage (inpWidth self) (inpHeight self);
            SetInputBlob; Resize (inpWidth self) (inpHeight self)],
     Raise (NameError "inpHeight")).
Proof.
  intro Him. unfold process. rewrite Him. rewrite !emit_then.
  unfold io_bind, emit, lift. simpl. rewrite <- !app_assoc. reflexivity.
Qed.

(** The cycle of a network without [im_info] input, around [postprocess]. *)
Lemma process_plain_run (self : PyDetectionDNN) (net : Net) (inframe : Frame)
    (outs : list Blob) (tr : list event) :
  has_im_info net = false ->
  process self net inframe outs tr =
    match postprocess self net inframe outs
            (tr ++ [GetCvBGR; TimerStart;
                    BlobFromImage (inpWidth self) (inpHeight self);
                    SetInputBlob; Forward]) with
    | (tr1, Ok _) =>
        (tr1 ++ [PutTitle; TimerStop; PutStatus;
                 SendCv (frameHeight inframe + 22) (frameWidth inframe)], Ok tt)
    | (tr1, Raise e) => (tr1, Raise e)
    end.
Proof.
  intro Him. unfold process. rewrite Him. rewrite !emit_then.
  unfold io_bind at 1. unfold io_ret at 1. rewrite emit_then.
  unfold io_bind at 1.
  replace (((((tr ++ [GetCvBGR]) ++ [TimerStart]) ++
              [BlobFromImage (inpWidth self) (inpHeight self)]) ++ [SetInputBlob]) ++
            [Forward])
    with (tr ++ [GetCvBGR; TimerStart;
                 BlobFromImage (inpWidth self) (inpHeight self);
                 SetInputBlob; Forward])
    by (rewrite <- !app_assoc; reflexivity).
  destruct (postprocess self net inframe outs _) as [tr1 [u|e]]; [|reflexivity].
  rewrite !emit_then. unfold emit. rewrite <- !app_assoc. reflexivity.
Qed.

(** [postprocess] for a network whose output format is recognised. *)
Lemma postprocess_selected (self : PyDetectionDNN) (net : Net) (frame : Frame)
    (d : Decoder) (outs : list Blob) (tr : list event) :
  selected net = Some d ->
  postprocess self net frame outs tr =
  match decode self frame d outs with
  | Ok acc => suppress_and_draw self acc tr
  | Raise e => (tr, Raise e)
  end.
Proof.
  unfold selected, postprocess, decode_outs. intro Hsel.
  destruct (has_im_info net).
  - injection Hsel as <-. unfold io_bind, lift, io_ret.
    now destruct (decode self frame ImInfo outs).
  - destruct (String.eqb (lastLayerType net) "DetectionOutput").
    + injection Hsel as <-. unfold io_bind, lift, io_ret.
      now destruct (decode self frame DetectionOutput outs).
    + destruct (String.eqb (lastLayerType net) "Region"); [|discriminate].
      injection Hsel as <-. unfold io_bind, lift, io_ret.
      now destruct (decode self frame Region outs).
Qed.

Lemma not_in_prefix (self : PyDetectionDNN) (e : event) :
  In e [GetCvBGR; TimerStart; BlobFromImage (inpWidth self) (inpHeight self);
        SetInputBlob; Forward] ->
  e <> TimerStop /\ forall rows cols, e <> SendCv rows cols.
Proof.
  intro H. repeat (destruct H as [<-|H]; [split; [|intros]; discriminate|]).
  destruct H.
Qed.

(** X17: a cycle sends a frame only when it returns, and then exactly the
    input frame's width and 22 more rows than the input frame.  If [process]
    raises, no frame has been sent and the timer started at the beginning
    has not been stopped; if it returns, the network had no [im_info] input
    and the trace is: the five steps up to the forward pass, what
    [postprocess] logged and drew, the title, the stopping of the timer,
    the status line and the frame. *)
Theorem process_sends_frame_only_on_return
    (self : PyDetectionDNN) (net : Net) (inframe : Frame) (outs : list Blob) :
  let run := process self net inframe outs [] in
  (forall rows cols,
     In (SendCv rows cols) (fst run) ->
     snd run = Ok tt /\
     rows = frameHeight inframe + 22 /\ cols = frameWidth inframe) /\
  (In TimerStop (fst run) -> snd run = Ok tt) /\
  (snd run = Ok tt ->
   has_im_info net = false /\
   exists shown,
     Forall postprocess_event shown /\
     fst run =
       [GetCvBGR; TimerStart; BlobFromImage (inpWidth self) (inpHeight self);
        SetInputBlob; Forward] ++ shown ++
       [PutTitle; TimerStop; PutStatus;
        SendCv (frameHeight inframe + 22) (frameWidth inframe)]).
Proof.
  intro run. subst run.
  destruct (has_im_info net) eqn:Him.
  - rewrite (process_im_info_run self net inframe outs [] Him). simpl.
    split; [|split].
    + intros rows cols H. repeat (destruct H as [H|H]; [discriminate|]). destruct H.
    + intro H. repeat (destruct H as [H|H]; [discriminate|]). destruct H.
    + discriminate.
  - rewrite (process_plain_run self net inframe outs [] Him).
    change ([] ++ [GetCvBGR; TimerStart;
                   BlobFromImage (inpWidth self) (inpHeight self);
                   SetInputBlob; Forward])
      with [GetCvBGR; TimerStart; BlobFromImage (inpWidth self) (inpHeight self);
            SetInputBlob; Forward].
    remember [GetCvBGR; TimerStart; BlobFromImage (inpWidth self) (inpHeight self);
              SetInputBlob; Forward] as prefix eqn:Hp.
    assert (Hpre : forall e, In e prefix ->
                     e <> TimerStop /\ forall rows cols, e <> SendCv rows cols)
      by (subst prefix; apply not_in_prefix).
    destruct (postprocess_extends self net inframe outs prefix) as (shown & E & F).
    rewrite Forall_forall in F.
    destruct (postprocess self net inframe outs prefix) as [tr1 [u|e]];
      cbn [fst] in E; subst tr1; cbn [fst snd].
    + split; [|split].
      * intros rows cols H. split; [reflexivity|].
        apply in_app_or in H. destruct H as [H|H].
        -- exfalso. apply in_app_or in H. destruct H as [H|H].
           ++ exact (proj2 (Hpre _ H) rows cols eq_refl).
           ++ exact (F _ H).
        -- repeat (destruct H as [H|H]; [try discriminate|]); [|destruct H].
           injection H as <- <-. split; reflexivity.
      * reflexivity.
      * intros _. split; [reflexivity|]. exists shown.
        split; [apply Forall_forall; exact F | now rewrite <- app_assoc].
    + split; [|split].
      * intros rows cols H. exfalso. apply in_app_or in H. destruct H as [H|H].
        -- exact (proj2 (Hpre _ H) rows cols eq_refl).
        -- exact (F _ H).
      * intro H. exfalso. apply in_app_or in H. destruct H as [H|H].
        -- exact (proj1 (Hpre _ H) eq_refl).
        -- exact (F _ H).
      * discriminate.
Qed.

Lemma process_sends_frame_only_on_return_witness :
  snd (process (default_self None) (mkNet false "DetectionOutput") (mkFrame 480 640)
         [[[0; 5; 9 # 10; 1 # 10; 2 # 10; 5 # 10; 6 # 10]%Q]] []) = Ok tt /\
  In (SendCv 502 640)
    (fst (process (default_self None) (mkNet false "DetectionOutput") (mkFrame 480 640)
            [[[0; 5; 9 # 10; 1 # 10; 2 # 10; 5 # 10; 6 # 10]%Q]] [])) /\
  has_im_info (mkNet false "DetectionOutput") = false.
Proof.
  split; [reflexivity|]. split; [simpl; tauto|].
  exact (proj1 (proj2 (proj2 (process_sends_frame_only_on_return (default_self None)
                                (mkNet false "DetectionOutput") (mkFrame 480 640)
                                [[[0; 5; 9 # 10; 1 # 10; 2 # 10; 5 # 10; 6 # 10]%Q]]))
                  eq_refl)).
Defined.



Lemma filter_none {A : Type} (p : A -> bool) (l : list A) :
  Forall (fun x => p x = false) l -> filter p l = [].
Proof.
  induction 1 as [|x l Hx _ IH]; simpl; [reflexivity|]. now rewrite Hx.
Qed.

Lemma aligned_no_candidates (acc : Acc) :
  aligned acc -> candidates acc = [] -> acc = empty_acc.
Proof.
  intros Hal Hc. destruct (aligned_fields acc Hal) as (H1 & H2 & H3).
  rewrite Hc in H1, H2, H3. destruct acc as [cs fs bs]. simpl in *.
  now subst.
Qed.

(** X19: when the selected loop returns and no row is above the confidence
    threshold, in particular when there is no row at all, the three lists
    are empty, [NMSBoxes] is called on empty lists and nothing is drawn. *)
Theorem nothing_above_threshold_draws_nothing
    (self : PyDetectionDNN) (net : Net) (frame : Frame) (d : Decoder)
    (outs : list Blob) (acc : Acc) (tr : list event) :
  selected net = Some d ->
  decode self frame d outs = Ok acc ->
  Forall (fun row => above_threshold self d row = false) (concat outs) ->
  acc = empty_acc /\
  postprocess self net frame outs tr = (tr ++ [CallNMSBoxes [] []], Ok tt).
Proof.
  intros Hsel Hdec Hnone.
  destruct (decode_candidates self frame d outs acc Hdec) as [Hal Hc].
  pose proof (filter_none _ _ Hnone) as Hf.
  rewrite Hf in Hc. simpl in Hc.
  pose proof (aligned_no_candidates acc Hal Hc) as ->.
  split; [reflexivity|].
  rewrite (postprocess_selected self net frame d outs tr Hsel), Hdec.
  reflexivity.
Qed.

Lemma nothing_above_threshold_draws_nothing_witness :
  selected (mkNet false "DetectionOutput") = Some DetectionOutput /\
  decode (default_self None) (mkFrame 480 640) DetectionOutput
    [[]; [[0; 5; 1 # 2; 1 # 10; 2 # 10; 5 # 10; 6 # 10]%Q]] = Ok empty_acc /\
  postprocess (default_self None) (mkNet false "DetectionOutput") (mkFrame 480 640)
    [[]; [[0; 5; 1 # 2; 1 # 10; 2 # 10; 5 # 10; 6 # 10]%Q]] []
  = ([CallNMSBoxes [] []], Ok tt).
Proof.
  assert (H1 : selected (mkNet false "DetectionOutput") = Some DetectionOutput)
    by reflexivity.
  split; [exact H1|]. split; [reflexivity|].
  refine (proj2 (nothing_above_threshold_draws_nothing (default_self None)
                   (mkNet false "DetectionOutput") (mkFrame 480 640) DetectionOutput
                   [[]; [[0; 5; 1 # 2; 1 # 10; 2 # 10; 5 # 10; 6 # 10]%Q]]
                   empty_acc [] H1 eq_refl _)).
  repeat constructor.
Defined.




(** X21: the layer whose type selects the decoding loop is the last of
    [getLayerNames()]; on a network without layers, [layerNames[-1]] raises
    [IndexError]. *)
Theorem last_layer_name_is_last (layerNames : list string) :
  (layerNames <> [] ->
   last_layer_name layerNames = Ok (last layerNames EmptyString)) /\
  (layerNames = [] -> last_layer_name layerNames = Raise IndexError) /\
  (forall name, last_layer_name layerNames = Ok name -> In name layerNames).
Proof.
  unfold last_layer_name. split; [|split].
  - intro Hne.
    rewrite (py_getitem_negative layerNames (-1) EmptyString)
      by (destruct layerNames; [congruence | simpl; lia]).
    rewrite <- (nth_last layerNames EmptyString). repeat f_equal. lia.
  - intros ->. reflexivity.
  - intros name H. now apply (py_getitem_In _ (-1)).
Qed.

Lemma last_layer_name_is_last_witness :
  ["conv1"; "detection_out"]%string <> [] /\
  last_layer_name ["conv1"; "detection_out"]%string = Ok "detection_out"%string.
Proof.
  assert (H : ["conv1"; "detection_out"]%string <> []) by discriminate.
  split; [exact H|].
  exact (proj1 (last_layer_name_is_last ["conv1"; "detection_out"]%string) H).
Defined.

(** ** Cycles that return *)





